(** * comfyui-vram-overlay: a shallow embedding of the overlay monitor
    (mvu_overlay_app.py) and of its supervisor node (nodes.py).

    The two programs talk to three collaborators they do not control: the
    NVML binding, psutil and the subprocess module.  The NVML binding and
    the subprocess module are oracles that answer a request from the
    history of what was asked before, psutil is the process table of the
    moment; the Python code is a computation in a small state-and-exception
    monad in which, as in Python, the state written before an exception is
    raised is kept. *)

From Stdlib Require Import ZArith List String Ascii Bool Lia DecimalString.
Import ListNotations.
Local Open Scope string_scope.
Local Open Scope Z_scope.

Set Implicit Arguments.

(** ** Python values used by both programs *)

Module Py.

(** [str.lower()] on the ASCII range; other bytes are left as they are. *)
Definition lower_ascii (c : ascii) : ascii :=
  let n := nat_of_ascii c in
  if (Nat.leb 65 n && Nat.leb n 90)%bool then ascii_of_nat (n + 32) else c.

Fixpoint lower (s : string) : string :=
  match s with
  | EmptyString => EmptyString
  | String c t => String (lower_ascii c) (lower t)
  end.

(** [needle in hay] for two [str]: substring containment. *)
Fixpoint str_in (needle hay : string) : bool :=
  String.prefix needle hay ||
  match hay with
  | EmptyString => false
  | String _ t => str_in needle t
  end.

(** [x in xs] for a list of [str]: some element equals [x]. *)
Definition list_in (x : string) (xs : list string) : bool :=
  existsb (String.eqb x) xs.

(** [str(n)] and the [{n}] of an f-string for an [int]. *)
Definition str_of_int (n : Z) : string :=
  NilZero.string_of_int (Z.to_int n).

(** Exceptions the two programs can meet. *)
Inductive exn : Type :=
  | NVMLError (code : Z)
  | AttributeError
  | NoSuchProcess
  | AccessDenied
  | ZombieProcess
  | OSError (errno : Z)
  | TimeoutExpired.

(** Levels of the [logging] module; the message text is not modelled. *)
Inductive log_level : Type := DEBUG | INFO | WARNING | ERROR.

End Py.

(** ** The monad: state that survives a raise *)

Module Eff.
Import Py.

Section Monad.
Variable W : Type.

Definition M (A : Type) : Type := W -> (exn + A) * W.

Definition ret {A} (a : A) : M A := fun w => (inr a, w).

Definition bind {A B} (m : M A) (k : A -> M B) : M B :=
  fun w =>
    match m w with
    | (inr a, w') => k a w'
    | (inl e, w') => (inl e, w')
    end.

Definition raise {A} (e : exn) : M A := fun w => (inl e, w).

(** [try: body / except <handled>: handler]; [handler e = None] means
    that no [except] clause matches [e], which then keeps propagating. *)
Definition try_except {A} (body : M A) (handler : exn -> option (M A)) : M A :=
  fun w =>
    match body w with
    | (inr a, w') => (inr a, w')
    | (inl e, w') =>
        match handler e with
        | Some h => h w'
        | None => (inl e, w')
        end
    end.

Definition gets {A} (f : W -> A) : M A := fun w => (inr (f w), w).
Definition modify (f : W -> W) : M unit := fun w => (inr tt, f w).

End Monad.

Arguments ret {W A} a.
Arguments raise {W A} e.
Arguments gets {W A} f.
Arguments modify {W} f.

Declare Scope eff_scope.
Delimit Scope eff_scope with eff.
Notation "x <- m ;; k" := (bind m (fun x => k))
  (at level 61, m at next level, right associativity) : eff_scope.
Notation "m ;; k" := (bind m (fun _ => k))
  (at level 61, right associativity) : eff_scope.

End Eff.

(** ** mvu_overlay_app.py: the Monitor process *)

Module Overlay.
Import Py Eff.
Local Open Scope eff_scope.

Module AppConfig.
Definition POLL_INTERVAL_MS : Z := 500.
Definition PROCESS_CHECK_INTERVAL_MS : Z := 3000.
Definition TARGET_PROCESS_NAME : string := "python".
Definition TARGET_CMDLINE_KEYWORD : string := "main.py".
End AppConfig.

(** *** The NVML binding *)

Inductive nvml_call : Type :=
  | nvmlInit
  | nvmlDeviceGetHandleByIndex (index : Z)
  | nvmlDeviceGetMemoryInfo (handle : Z)
  | nvmlShutdown.

(** The fields of the structure [nvmlDeviceGetMemoryInfo] returns, each an
    unsigned 64-bit count of bytes. *)
Record c_nvmlMemory_t : Type := { total : Z; free : Z; used : Z }.

Inductive nvml_return (A : Type) : Type :=
  | NVML_SUCCESS (value : A)
  | NVML_ERROR (code : Z).
Arguments NVML_ERROR {A} code.

(** What the library answers, given the calls made before this one.  A
    device handle is a pointer, modelled by its address. *)
Record Nvml : Type := {
  on_nvmlInit : list nvml_call -> nvml_return unit;
  on_nvmlDeviceGetHandleByIndex : list nvml_call -> Z -> nvml_return Z;
  on_nvmlDeviceGetMemoryInfo : list nvml_call -> Z -> nvml_return c_nvmlMemory_t;
  on_nvmlShutdown : list nvml_call -> nvml_return unit
}.

(** *** The objects of the process *)

Record VramMonitorModel : Type := {
  _handle : option Z;
  _initialized : bool
}.

(** [VramMonitorModel.__init__] *)
Definition VramMonitorModel_init : VramMonitorModel :=
  {| _handle := None; _initialized := false |}.

Record World : Type := {
  nvml_calls : list nvml_call;   (* calls to the library, oldest first *)
  vram_model : VramMonitorModel;
  shown : list string;           (* every text given to the label, oldest first *)
  quit_requested : bool;         (* QApplication.quit() was called *)
  log : list log_level
}.

Definition World_init : World :=
  {| nvml_calls := []; vram_model := VramMonitorModel_init;
     shown := []; quit_requested := false; log := [] |}.

Definition add_call (c : nvml_call) (w : World) : World :=
  {| nvml_calls := (nvml_calls w ++ [c])%list; vram_model := vram_model w;
     shown := shown w; quit_requested := quit_requested w; log := log w |}.

Definition set_model (m : VramMonitorModel) (w : World) : World :=
  {| nvml_calls := nvml_calls w; vram_model := m;
     shown := shown w; quit_requested := quit_requested w; log := log w |}.

Definition set_handle (h : option Z) (w : World) : World :=
  set_model {| _handle := h; _initialized := _initialized (vram_model w) |} w.

Definition set_initialized (b : bool) (w : World) : World :=
  set_model {| _handle := _handle (vram_model w); _initialized := b |} w.

Definition add_shown (text : string) (w : World) : World :=
  {| nvml_calls := nvml_calls w; vram_model := vram_model w;
     shown := (shown w ++ [text])%list; quit_requested := quit_requested w; log := log w |}.

Definition set_quit (w : World) : World :=
  {| nvml_calls := nvml_calls w; vram_model := vram_model w;
     shown := shown w; quit_requested := true; log := log w |}.

Definition add_log (l : log_level) (w : World) : World :=
  {| nvml_calls := nvml_calls w; vram_model := vram_model w;
     shown := shown w; quit_requested := quit_requested w; log := (log w ++ [l])%list |}.

Definition logger (l : log_level) : M World unit := modify (add_log l).

(** The text the label shows now: the last one it was given. *)
Definition label_text (w : World) : option string := last (map Some (shown w)) None.

(** How many times [nvmlInit] and [nvmlShutdown] were called. *)
Definition is_init_call (c : nvml_call) : bool :=
  match c with nvmlInit => true | _ => false end.
Definition is_shutdown_call (c : nvml_call) : bool :=
  match c with nvmlShutdown => true | _ => false end.
Definition init_calls (w : World) : nat :=
  List.length (filter is_init_call (nvml_calls w)).
Definition shutdown_calls (w : World) : nat :=
  List.length (filter is_shutdown_call (nvml_calls w)).

Section WithNvml.
Variable nvml : Nvml.

(** A call into the binding: it is recorded, and an error status is
    raised as [NVMLError]. *)
Definition call {A} (c : nvml_call) (answer : list nvml_call -> nvml_return A)
  : M World A :=
  fun w =>
    match answer (nvml_calls w) with
    | NVML_SUCCESS a => (inr a, add_call c w)
    | NVML_ERROR code => (inl (NVMLError code), add_call c w)
    end.

Definition except_NVMLError {A} (h : M World A) (e : exn) : option (M World A) :=
  match e with
  | NVMLError _ => Some h
  | _ => None
  end.

(** [VramMonitorModel.initialize] *)
Definition initialize : M World unit :=
  try_except
    (call nvmlInit (on_nvmlInit nvml) ;;
     h <- call (nvmlDeviceGetHandleByIndex 0)
            (fun t => on_nvmlDeviceGetHandleByIndex nvml t 0) ;;
     modify (set_handle (Some h)) ;;
     modify (set_initialized true) ;;
     logger INFO)
    (except_NVMLError
       (logger ERROR ;;
        modify (set_initialized false))).

(** Truth value of [self._handle]: [None] is false, and so is a ctypes
    pointer that is null. *)
Definition handle_truthy (h : option Z) : bool :=
  match h with
  | Some p => negb (p =? 0)
  | None => false
  end.

(** [VramMonitorModel.get_free_memory_mb] *)
Definition get_free_memory_mb : M World (option Z) :=
  m <- gets vram_model ;;
  if negb (_initialized m) || negb (handle_truthy (_handle m)) then ret None
  else
    match _handle m with
    | None => ret None
    | Some p =>
        try_except
          (mem_info <- call (nvmlDeviceGetMemoryInfo p)
                         (fun t => on_nvmlDeviceGetMemoryInfo nvml t p) ;;
           ret (Some (free mem_info / 1024 ^ 2)))
          (except_NVMLError
             (logger WARNING ;;
              ret None))
    end.

(** [VramMonitorModel.shutdown] *)
Definition shutdown : M World unit :=
  m <- gets vram_model ;;
  if _initialized m then
    try_except
      (call nvmlShutdown (on_nvmlShutdown nvml) ;;
       logger INFO)
      (except_NVMLError (logger ERROR))
  else ret tt.

(** [VramOverlayView.update_text] *)
Definition update_text (text : string) : M World unit := modify (add_shown text).

(** [OverlayController._update_vram]: one poll cycle. *)
Definition _update_vram : M World unit :=
  free_mb <- get_free_memory_mb ;;
  match free_mb with
  | Some mb => update_text ("VRAM: " ++ str_of_int mb ++ " MB")
  | None => update_text "VRAM: Err"
  end.

(** [OverlayController.__init__], past the timers and the window. *)
Definition OverlayController_init : M World unit :=
  initialize ;;
  _update_vram.

(** [n] firings of the VRAM timer. *)
Fixpoint poll_cycles (n : nat) : M World unit :=
  match n with
  | O => ret tt
  | S n' => _update_vram ;; poll_cycles n'
  end.

(** [OverlayController.cleanup] *)
Definition cleanup : M World unit := shutdown.

End WithNvml.

(** *** Watching the parent process *)

(** What [psutil.process_iter(['name', 'cmdline'])] yields for a process:
    [proc.info], where a field psutil could not read is [None]. *)
Record proc : Type := {
  pid : Z;
  name : option string;
  cmdline : option (list string)
}.

Record ProcessMonitorModel : Type := { target_pid : option Z }.

(** [psutil.pid_exists]: some process of the table has this pid. *)
Definition pid_exists (table : list proc) (p : Z) : bool :=
  existsb (fun q => pid q =? p) table.

(** Truth value of [self.target_pid], an [Optional[int]]. *)
Definition pid_truthy (p : option Z) : bool :=
  match p with
  | Some n => negb (n =? 0)
  | None => false
  end.

(** The condition of the [if] in the loop of [is_alive]. *)
Definition signature_found (p : proc) : exn + bool :=
  match name p with
  | None => inl AttributeError          (* None has no .lower() *)
  | Some nm =>
      inr (str_in AppConfig.TARGET_PROCESS_NAME (lower nm) &&
           match cmdline p with
           | None | Some [] => false
           | Some args => list_in AppConfig.TARGET_CMDLINE_KEYWORD args
           end)
  end.

Definition psutil_skipped (e : exn) : bool :=
  match e with
  | NoSuchProcess | AccessDenied | ZombieProcess => true
  | _ => false
  end.

Fixpoint scan (procs : list proc) : exn + bool :=
  match procs with
  | [] => inr false
  | p :: rest =>
      match signature_found p with
      | inr true => inr true
      | inr false => scan rest
      | inl e => if psutil_skipped e then scan rest else inl e
      end
  end.

(** [ProcessMonitorModel.is_alive], on the process table of the moment. *)
Definition is_alive (self : ProcessMonitorModel) (table : list proc) : exn + bool :=
  if pid_truthy (target_pid self) then
    match target_pid self with
    | Some p => inr (pid_exists table p)
    | None => inr false
    end
  else scan table.

(** [OverlayController._check_process_alive] *)
Definition _check_process_alive (pm : ProcessMonitorModel) (table : list proc)
  : M World unit :=
  match is_alive pm table with
  | inl e => raise e
  | inr alive =>
      if negb alive then logger INFO ;; modify set_quit else ret tt
  end.

(** [main], with the command line already parsed: [--pid] is an [int] or
    absent. *)
Definition main_models (arg_pid : option Z) : VramMonitorModel * ProcessMonitorModel :=
  (VramMonitorModel_init, {| target_pid := arg_pid |}).

(** What the [if] of the loop tests, for a process whose name was read. *)
Definition signature_holds (p : proc) : Prop :=
  exists nm args,
    name p = Some nm /\ cmdline p = Some args /\
    str_in AppConfig.TARGET_PROCESS_NAME (lower nm) = true /\
    In AppConfig.TARGET_CMDLINE_KEYWORD args.

(** [initialize] fails when [nvmlInit] answers with an error status or,
    [nvmlInit] done, [nvmlDeviceGetHandleByIndex(0)] does. *)
Definition init_fails (nvml : Nvml) (w : World) : Prop :=
  (exists code, on_nvmlInit nvml (nvml_calls w) = NVML_ERROR code) \/
  (exists code,
     on_nvmlDeviceGetHandleByIndex nvml (nvml_calls w ++ [nvmlInit]) 0 = NVML_ERROR code).

End Overlay.

(** ** mvu_overlay_app.py: the window, the event loop and [main] *)

Module View.
Import Py.

(** A [QPoint]; coordinates are screen coordinates, far from the bounds of
    a C [int]. *)
Record QPoint : Type := { px : Z; py : Z }.

Inductive MouseButton : Type := LeftButton | RightButton | MiddleButton.

(** The part of [VramOverlayView] its own methods read and write: where the
    window is, how large Qt made it, and the drag in progress. *)
Record VramOverlayView : Type := {
  x : Z;
  y : Z;
  width : Z;
  height : Z;
  _old_pos : option QPoint
}.

(** [QWidget.move] *)
Definition move (nx ny : Z) (v : VramOverlayView) : VramOverlayView :=
  {| x := nx; y := ny; width := width v; height := height v; _old_pos := _old_pos v |}.

Definition set_old_pos (o : option QPoint) (v : VramOverlayView) : VramOverlayView :=
  {| x := x v; y := y v; width := width v; height := height v; _old_pos := o |}.

Definition RIGHT_MARGIN : Z := 130.
Definition BOTTOM_MARGIN : Z := 85.

(** [VramOverlayView.set_position]; [screen] is the geometry of
    [QApplication.primaryScreen()] as (width, height), if there is one. *)
Definition set_position (screen : option (Z * Z)) (v : VramOverlayView)
  : VramOverlayView :=
  match screen with
  | Some (geo_width, geo_height) =>
      move (geo_width - width v - RIGHT_MARGIN)
           (geo_height - height v - BOTTOM_MARGIN) v
  | None => v
  end.

(** [VramOverlayView.mousePressEvent] *)
Definition mousePressEvent (button : MouseButton) (pos : QPoint) (v : VramOverlayView)
  : VramOverlayView :=
  match button with
  | LeftButton => set_old_pos (Some pos) v
  | _ => v
  end.

(** [VramOverlayView.mouseMoveEvent] *)
Definition mouseMoveEvent (pos : QPoint) (v : VramOverlayView) : VramOverlayView :=
  match _old_pos v with
  | Some old =>
      let delta := {| px := px pos - px old; py := py pos - py old |} in
      set_old_pos (Some pos) (move (x v + px delta) (y v + py delta) v)
  | None => v
  end.

(** [VramOverlayView.mouseReleaseEvent] *)
Definition mouseReleaseEvent (button : MouseButton) (v : VramOverlayView)
  : VramOverlayView :=
  match button with
  | LeftButton => set_old_pos None v
  | _ => v
  end.

(** The mouse events Qt delivers to the window. *)
Inductive mouse_event : Type :=
| Press (button : MouseButton) (pos : QPoint)
| Move (pos : QPoint)
| Release (button : MouseButton).

Definition deliver (e : mouse_event) (v : VramOverlayView) : VramOverlayView :=
  match e with
  | Press b p => mousePressEvent b p v
  | Move p => mouseMoveEvent p v
  | Release b => mouseReleaseEvent b v
  end.

Definition deliver_all (es : list mouse_event) (v : VramOverlayView) : VramOverlayView :=
  fold_left (fun v e => deliver e v) es v.

Definition starts_drag (e : mouse_event) : bool :=
  match e with
  | Press LeftButton _ => true
  | _ => false
  end.

End View.

Module App.
Import Py Eff Overlay.
Local Open Scope eff_scope.

(** A timer that fired.  The process timer comes with the process table of
    that moment. *)
Inductive timeout : Type :=
| vram_timer
| process_timer (table : list proc).

Definition slot (nvml : Nvml) (pm : ProcessMonitorModel) (t : timeout) : M World unit :=
  match t with
  | vram_timer => _update_vram nvml
  | process_timer table => _check_process_alive pm table
  end.

(** [app.exec()]: the slots of the timers that fire, one after the other,
    until [QApplication.quit()] was called; the list ends where something
    else ends the event loop.  An exception that leaves a slot ends the run. *)
Fixpoint exec (nvml : Nvml) (pm : ProcessMonitorModel) (ticks : list timeout)
  : M World unit :=
  match ticks with
  | [] => ret tt
  | t :: rest =>
      quit <- gets quit_requested ;;
      if quit then ret tt
      else slot nvml pm t ;; exec nvml pm rest
  end.

(** [VramOverlayView.__init__]: [_setup_ui] ends with the first text. *)
Definition VramOverlayView_init : M World unit := update_text "Init...".

(** [main], from the parsed [--pid] on. *)
Definition main (nvml : Nvml) (arg_pid : option Z) (ticks : list timeout)
  : M World unit :=
  let models := main_models arg_pid in
  modify (set_model (fst models)) ;;
  VramOverlayView_init ;;
  OverlayController_init nvml ;;
  exec nvml (snd models) ticks ;;
  cleanup nvml.

Definition is_vram_timer (t : timeout) : bool :=
  match t with
  | vram_timer => true
  | process_timer _ => false
  end.

(** A text [_update_vram] can show. *)
Definition vram_text (text : string) : Prop :=
  text = "VRAM: Err" \/ exists mb, text = "VRAM: " ++ str_of_int mb ++ " MB".

(** Both steps of [initialize] succeed from this history of calls. *)
Definition init_succeeds (nvml : Nvml) (calls : list nvml_call) : bool :=
  match on_nvmlInit nvml calls with
  | NVML_SUCCESS _ =>
      match on_nvmlDeviceGetHandleByIndex nvml (calls ++ [nvmlInit]) 0 with
      | NVML_SUCCESS _ => true
      | NVML_ERROR _ => false
      end
  | NVML_ERROR _ => false
  end.

(** The query one poll cycle sends: none unless the model is initialized
    and holds a handle that is not null. *)
Definition cycle_query (m : VramMonitorModel) : list nvml_call :=
  if _initialized m then
    match _handle m with
    | Some p => if p =? 0 then [] else [nvmlDeviceGetMemoryInfo p]
    | None => []
    end
  else [].

(** Two processes that differ in the letter case of their names only. *)
Definition same_up_to_case (p q : proc) : Prop :=
  option_map lower (name p) = option_map lower (name q) /\ cmdline p = cmdline q.

End App.

(** ** nodes.py: the supervisor inside the host process *)

Module Nodes.
Import Py Eff.
Local Open Scope eff_scope.

(** A [subprocess.Popen] object belongs to the subprocess module; the
    manager only keeps a reference to it, which the child's pid stands for.
    What [poll] and [wait] answer, the return code the object caches
    included, is the module's business and comes from the oracle. *)
Record Popen : Type := { pid : Z }.

Inductive spawn_result : Type :=
| Spawned (child : Popen)
| Refused (errno : Z).

(** What the process asked of the operating system, with the answer. *)
Inductive os_event : Type :=
| ev_exists (path : string) (answer : bool)
| ev_Popen (cmd : list string) (cwd : string) (result : spawn_result)
| ev_poll (child : Popen) (returncode : option Z)
| ev_terminate (child : Popen)
| ev_wait (child : Popen) (timeout : Z) (returncode : option Z)
| ev_kill (child : Popen).

Record Host : Type := {
  current_dir : string;      (* os.path.dirname(os.path.abspath(__file__)) *)
  path_join : string -> string -> string;
  sys_executable : string;
  getpid : Z;
  on_exists : list os_event -> string -> bool;
  on_Popen : list os_event -> list string -> string -> spawn_result;
  on_poll : list os_event -> Popen -> option Z;        (* None: still running *)
  on_wait : list os_event -> Popen -> Z -> option Z    (* None: the timeout expired *)
}.

(** The one [OverlayProcessManager] ([__new__] hands out the same instance)
    and what the host process did so far. *)
Record World : Type := {
  os_events : list os_event;   (* oldest first *)
  _process : option Popen;
  log : list log_level
}.

Definition World_init : World :=
  {| os_events := []; _process := None; log := [] |}.

Definition add_event (e : os_event) (w : World) : World :=
  {| os_events := (os_events w ++ [e])%list; _process := _process w; log := log w |}.

Definition set_process (p : option Popen) (w : World) : World :=
  {| os_events := os_events w; _process := p; log := log w |}.

Definition add_log (l : log_level) (w : World) : World :=
  {| os_events := os_events w; _process := _process w; log := (log w ++ [l])%list |}.

Definition logger (l : log_level) : M World unit := modify (add_log l).

Definition is_spawn (e : os_event) : bool :=
  match e with
  | ev_Popen _ _ (Spawned _) => true
  | _ => false
  end.

(** The number of child processes created so far. *)
Definition spawned (w : World) : nat := List.length (filter is_spawn (os_events w)).

(** The signals sent so far, in order. *)
Definition is_signal (e : os_event) : bool :=
  match e with
  | ev_terminate _ | ev_kill _ => true
  | _ => false
  end.
Definition signals (w : World) : list os_event := filter is_signal (os_events w).

Section WithHost.
Variable host : Host.

(** [os.path.exists] *)
Definition os_path_exists (path : string) : M World bool :=
  fun w =>
    let a := on_exists host (os_events w) path in
    (inr a, add_event (ev_exists path a) w).

(** [subprocess.Popen(cmd, cwd=...)] *)
Definition Popen_new (cmd : list string) (cwd : string) : M World Popen :=
  fun w =>
    let r := on_Popen host (os_events w) cmd cwd in
    match r with
    | Spawned child => (inr child, add_event (ev_Popen cmd cwd r) w)
    | Refused errno => (inl (OSError errno), add_event (ev_Popen cmd cwd r) w)
    end.

(** [Popen.poll] *)
Definition Popen_poll (child : Popen) : M World (option Z) :=
  fun w =>
    let rc := on_poll host (os_events w) child in
    (inr rc, add_event (ev_poll child rc) w).

(** [Popen.terminate]; sending a signal to one's own child does not raise. *)
Definition Popen_terminate (child : Popen) : M World unit :=
  modify (add_event (ev_terminate child)).

(** [Popen.wait(timeout=...)] *)
Definition Popen_wait (child : Popen) (timeout : Z) : M World Z :=
  fun w =>
    let rc := on_wait host (os_events w) child timeout in
    match rc with
    | Some code => (inr code, add_event (ev_wait child timeout rc) w)
    | None => (inl TimeoutExpired, add_event (ev_wait child timeout rc) w)
    end.

(** [Popen.kill] *)
Definition Popen_kill (child : Popen) : M World unit :=
  modify (add_event (ev_kill child)).

Definition except_OSError {A} (h : M World A) (e : exn) : option (M World A) :=
  match e with
  | OSError _ => Some h
  | _ => None
  end.

Definition except_TimeoutExpired {A} (h : M World A) (e : exn) : option (M World A) :=
  match e with
  | TimeoutExpired => Some h
  | _ => None
  end.

(** [OverlayProcessManager.is_running] *)
Definition is_running : M World bool :=
  p <- gets _process ;;
  match p with
  | None => ret false
  | Some child =>
      rc <- Popen_poll child ;;
      match rc with
      | None => ret true
      | Some _ => ret false
      end
  end.

(** [OverlayProcessManager.start_overlay] *)
Definition start_overlay : M World unit :=
  running <- is_running ;;
  if running then logger INFO
  else
    let script_path := path_join host (current_dir host) "mvu_overlay_app.py" in
    found <- os_path_exists script_path ;;
    if negb found then logger ERROR
    else
      let current_pid := getpid host in
      try_except
        (let cmd := [sys_executable host; script_path; "--pid"; str_of_int current_pid] in
         child <- Popen_new cmd (current_dir host) ;;
         modify (set_process (Some child)) ;;
         logger INFO)
        (except_OSError (logger ERROR)).

(** [OverlayProcessManager.stop_overlay] *)
Definition stop_overlay : M World unit :=
  running <- is_running ;;
  p <- gets _process ;;
  match running, p with
  | true, Some child =>
      logger INFO ;;
      Popen_terminate child ;;
      try_except
        (Popen_wait child 2 ;; ret tt)
        (except_TimeoutExpired
           (logger WARNING ;;
            Popen_kill child)) ;;
      modify (set_process None) ;;
      logger INFO
  | _, _ => logger DEBUG
  end.

(** [MVU_VramOverlay.run]; the 1-tuple it returns is its only component. *)
Definition run (enabled : bool) : M World bool :=
  logger INFO ;;
  (if enabled then start_overlay else stop_overlay) ;;
  ret enabled.

End WithHost.

Definition OUTPUT_NODE : bool := true.

End Nodes.

(** ** nodes.py: many executions of the node *)

Module Supervision.
Import Py Eff Nodes.
Local Open Scope eff_scope.

(** [OverlayProcessManager.__new__].  Objects are told apart by their
    address; [fresh] is the address [super().__new__] would give and
    [_instance] the class attribute. *)
Definition OverlayProcessManager_new (fresh : nat) (_instance : option nat)
  : nat * option nat :=
  match _instance with
  | None => (fresh, Some fresh)
  | Some inst => (inst, Some inst)
  end.

(** The managers that the [__init__] of one node after the other gets. *)
Fixpoint construct_all (addresses : list nat) (_instance : option nat)
  : list nat * option nat :=
  match addresses with
  | [] => ([], _instance)
  | a :: rest =>
      let (manager, i1) := OverlayProcessManager_new a _instance in
      let (managers, i2) := construct_all rest i1 in
      (manager :: managers, i2)
  end.

(** The node executed once per workflow run, with these inputs. *)
Fixpoint run_all (host : Host) (inputs : list bool) : M World (list bool) :=
  match inputs with
  | [] => ret []
  | enabled :: rest =>
      out <- run host enabled ;;
      outs <- run_all host rest ;;
      ret (out :: outs)
  end.

(** The command line [start_overlay] builds. *)
Definition script_path (host : Host) : string :=
  path_join host (current_dir host) "mvu_overlay_app.py".
Definition overlay_cmd (host : Host) : list string :=
  [sys_executable host; script_path host; "--pid"; str_of_int (getpid host)].

Definition same_child (a b : Popen) : bool := pid a =? pid b.

(** The child that may still run, as far as the events tell: the last one
    spawned, until a poll or a wait returned its exit status or it was sent
    the kill signal. *)
Definition after_event (running : option Popen) (e : os_event) : option Popen :=
  match e with
  | ev_Popen _ _ (Spawned child) => Some child
  | ev_poll child (Some _) | ev_wait child _ (Some _) | ev_kill child =>
      match running with
      | Some r => if same_child r child then None else running
      | None => None
      end
  | _ => running
  end.

Definition may_run (running : option Popen) (events : list os_event) : option Popen :=
  fold_left after_event events running.

(** No process is spawned while an earlier one may still run. *)
Fixpoint one_at_a_time (running : option Popen) (events : list os_event) : bool :=
  match events with
  | [] => true
  | e :: rest =>
      match e, running with
      | ev_Popen _ _ (Spawned _), Some _ => false
      | _, _ => one_at_a_time (after_event running e) rest
      end
  end.

(** What [start_overlay] may ask of the operating system for this host. *)
Definition launch_event (host : Host) (e : os_event) : Prop :=
  match e with
  | ev_exists path _ => path = script_path host
  | ev_Popen cmd cwd _ => cmd = overlay_cmd host /\ cwd = current_dir host
  | _ => True
  end.

(** What one call asks of the operating system, and the handle it leaves.
    Both methods begin with [is_running]: no poll without a handle, one
    poll with one. *)
Inductive polled_not_running (w : World) : list os_event -> Prop :=
| polled_no_handle :
    _process w = None -> polled_not_running w []
| polled_exited (child : Popen) (rc : Z) :
    _process w = Some child -> polled_not_running w [ev_poll child (Some rc)].

Inductive start_steps (host : Host) (w : World) : list os_event -> option Popen -> Prop :=
| start_running (child : Popen) :
    _process w = Some child ->
    start_steps host w [ev_poll child None] (Some child)
| start_missing (polled : list os_event) :
    polled_not_running w polled ->
    start_steps host w (polled ++ [ev_exists (script_path host) false]) (_process w)
| start_refused (polled : list os_event) (errno : Z) :
    polled_not_running w polled ->
    start_steps host w
      (polled ++ [ev_exists (script_path host) true;
                  ev_Popen (overlay_cmd host) (current_dir host) (Refused errno)])
      (_process w)
| start_spawned (polled : list os_event) (child : Popen) :
    polled_not_running w polled ->
    start_steps host w
      (polled ++ [ev_exists (script_path host) true;
                  ev_Popen (overlay_cmd host) (current_dir host) (Spawned child)])
      (Some child).

Inductive stop_steps (w : World) : list os_event -> option Popen -> Prop :=
| stop_not_running (polled : list os_event) :
    polled_not_running w polled ->
    stop_steps w polled (_process w)
| stop_graceful (child : Popen) (rc : Z) :
    _process w = Some child ->
    stop_steps w [ev_poll child None; ev_terminate child; ev_wait child 2 (Some rc)] None
| stop_forced (child : Popen) :
    _process w = Some child ->
    stop_steps w [ev_poll child None; ev_terminate child; ev_wait child 2 None;
                  ev_kill child] None.

Definition is_terminate (e : os_event) : bool :=
  match e with
  | ev_terminate _ => true
  | _ => false
  end.

Definition is_kill (e : os_event) : bool :=
  match e with
  | ev_kill _ => true
  | _ => false
  end.

Definition count {A} (f : A -> bool) (l : list A) : nat := List.length (filter f l).

(** The handle covers the child that may still run, and no spawn overlapped
    an earlier child. *)
Definition covered (es : list os_event) (p : option Popen) : Prop :=
  one_at_a_time None es = true /\ (may_run None es = None \/ may_run None es = p).

End Supervision.

(** ** The liveness rule as the specification words it *)

Module SpecWords.
Import Py Overlay.

(** "A process's name contains a configured substring AND its command-line
    arguments contain a second configured substring." *)
Definition spec_signature (p : proc) : bool :=
  match name p, cmdline p with
  | Some nm, Some args =>
      str_in AppConfig.TARGET_PROCESS_NAME nm &&
      existsb (str_in AppConfig.TARGET_CMDLINE_KEYWORD) args
  | _, _ => false
  end.

(** "Liveness = true if any process ..." *)
Definition spec_fallback_alive (table : list proc) : bool :=
  existsb spec_signature table.

End SpecWords.

(** ** Concrete collaborators and inputs *)

Module Samples.
Import Py Overlay.

(** A driver with one GPU that always answers, [free_bytes] being free. *)
Definition gpu_nvml (free_bytes : Z) : Nvml :=
  {| on_nvmlInit := fun _ => NVML_SUCCESS tt;
     on_nvmlDeviceGetHandleByIndex := fun _ _ => NVML_SUCCESS 140737488355328;
     on_nvmlDeviceGetMemoryInfo := fun _ _ =>
       NVML_SUCCESS {| total := 8589934592; free := free_bytes;
                       used := 8589934592 - free_bytes |};
     on_nvmlShutdown := fun _ => NVML_SUCCESS tt |}.

(** No driver: every call fails with NVML_ERROR_DRIVER_NOT_LOADED. *)
Definition no_driver_nvml : Nvml :=
  {| on_nvmlInit := fun _ => NVML_ERROR 9;
     on_nvmlDeviceGetHandleByIndex := fun _ _ => NVML_ERROR 9;
     on_nvmlDeviceGetMemoryInfo := fun _ _ => NVML_ERROR 9;
     on_nvmlShutdown := fun _ => NVML_ERROR 9 |}.

(** A model that went through a successful [initialize]. *)
Definition ready_world : World :=
  snd (initialize (gpu_nvml 5242879) World_init).

(** ComfyUI started by its full path: the keyword is inside an argument. *)
Definition table_full_path : list proc :=
  [ {| pid := 1; name := Some "systemd"; cmdline := Some ["/sbin/init"] |};
    {| pid := 812; name := Some "python";
       cmdline := Some ["python"; "/opt/ComfyUI/main.py"; "--listen"] |} ].

(** ComfyUI started as [Python.exe main.py]. *)
Definition table_capitalised : list proc :=
  [ {| pid := 4; name := Some "System"; cmdline := None |};
    {| pid := 5120; name := Some "Python.exe";
       cmdline := Some ["Python.exe"; "main.py"] |} ].

(** Only the name matches in one process, only the command line in another. *)
Definition table_one_condition_each : list proc :=
  [ {| pid := 300; name := Some "python3"; cmdline := Some ["python3"; "server.py"] |};
    {| pid := 301; name := Some "node"; cmdline := Some ["node"; "main.py"] |} ].

(** A Windows table: the idle process has pid 0; the overlay itself runs,
    ComfyUI does not. *)
Definition table_with_pid_0 : list proc :=
  [ {| pid := 0; name := Some "System Idle Process"; cmdline := None |};
    {| pid := 4; name := Some "System"; cmdline := None |};
    {| pid := 7036; name := Some "python.exe";
       cmdline := Some ["python.exe"; "mvu_overlay_app.py"; "--pid"; "0"] |} ].

(** The name of the first process could not be read. *)
Definition table_unreadable_name : list proc :=
  [ {| pid := 4; name := None; cmdline := None |};
    {| pid := 5120; name := Some "python.exe"; cmdline := Some ["python.exe"; "main.py"] |} ].

(** ComfyUI as two systems report it: the same process but for letter case. *)
Definition table_lower_case : list proc :=
  [ {| pid := 5120; name := Some "python.exe"; cmdline := Some ["python"; "main.py"] |} ].
Definition table_upper_case : list proc :=
  [ {| pid := 5120; name := Some "PYTHON.EXE"; cmdline := Some ["python"; "main.py"] |} ].

(** The GPU answers every second query only. *)
Definition flaky_nvml : Nvml :=
  {| on_nvmlInit := fun _ => NVML_SUCCESS tt;
     on_nvmlDeviceGetHandleByIndex := fun _ _ => NVML_SUCCESS 140737488355328;
     on_nvmlDeviceGetMemoryInfo := fun calls _ =>
       if Nat.even (List.length calls)
       then NVML_SUCCESS {| total := 8589934592; free := 4294967296; used := 4294967296 |}
       else NVML_ERROR 999;
     on_nvmlShutdown := fun _ => NVML_SUCCESS tt |}.

(** [nvmlInit] works and there is no device 0 (NVML_ERROR_INVALID_ARGUMENT). *)
Definition no_device_nvml : Nvml :=
  {| on_nvmlInit := fun _ => NVML_SUCCESS tt;
     on_nvmlDeviceGetHandleByIndex := fun _ _ => NVML_ERROR 2;
     on_nvmlDeviceGetMemoryInfo := fun _ _ => NVML_ERROR 2;
     on_nvmlShutdown := fun _ => NVML_SUCCESS tt |}.

End Samples.

(** Hosts for the supervisor. *)

Module HostSamples.
Import Py Nodes.

Definition is_kill (e : os_event) : bool :=
  match e with
  | ev_kill _ => true
  | _ => false
  end.

Definition posix_join (a b : string) : string := a ++ "/" ++ b.

(** The overlay starts and ignores SIGTERM: it runs until it is killed. *)
Definition stubborn_host : Host :=
  {| current_dir := "/opt/ComfyUI/custom_nodes/comfyui-vram-overlay";
     path_join := posix_join;
     sys_executable := "/usr/bin/python3";
     getpid := 812;
     on_exists := fun _ _ => true;
     on_Popen := fun _ _ _ => Spawned {| pid := 4242 |};
     on_poll := fun h _ => if existsb is_kill h then Some (-9) else None;
     on_wait := fun h _ _ => if existsb is_kill h then Some (-9) else None |}.

(** The overlay starts and exits on the first signal. *)
Definition polite_host : Host :=
  {| current_dir := "/opt/ComfyUI/custom_nodes/comfyui-vram-overlay";
     path_join := posix_join;
     sys_executable := "/usr/bin/python3";
     getpid := 812;
     on_exists := fun _ _ => true;
     on_Popen := fun _ _ _ => Spawned {| pid := 4242 |};
     on_poll := fun h _ => if existsb is_signal h then Some (-15) else None;
     on_wait := fun h _ _ => if existsb is_signal h then Some (-15) else None |}.

(** The script is there and the system cannot create a process (ENOMEM). *)
Definition refusing_host : Host :=
  {| current_dir := "/opt/ComfyUI/custom_nodes/comfyui-vram-overlay";
     path_join := posix_join;
     sys_executable := "/usr/bin/python3";
     getpid := 812;
     on_exists := fun _ _ => true;
     on_Popen := fun _ _ _ => Refused 12;
     on_poll := fun _ _ => None;
     on_wait := fun _ _ _ => None |}.

(** The overlay starts and crashes at once (exit status 1). *)
Definition crashing_host : Host :=
  {| current_dir := "/opt/ComfyUI/custom_nodes/comfyui-vram-overlay";
     path_join := posix_join;
     sys_executable := "/usr/bin/python3";
     getpid := 812;
     on_exists := fun _ _ => true;
     on_Popen := fun _ _ _ => Spawned {| pid := 4242 |};
     on_poll := fun _ _ => Some 1;
     on_wait := fun _ _ _ => Some 1 |}.

(** The script was not installed next to nodes.py. *)
Definition incomplete_host : Host :=
  {| current_dir := "/opt/ComfyUI/custom_nodes/comfyui-vram-overlay";
     path_join := posix_join;
     sys_executable := "/usr/bin/python3";
     getpid := 812;
     on_exists := fun _ _ => false;
     on_Popen := fun _ _ _ => Spawned {| pid := 4242 |};
     on_poll := fun _ _ => None;
     on_wait := fun _ _ _ => None |}.

(** The state after a first [start_overlay]. *)
Definition started_world (host : Host) : World := snd (start_overlay host World_init).

End HostSamples.

Module ViewSamples.
Import View.

(** A window of 120 by 30 at the origin, and a pointer position. *)
Definition small_window : VramOverlayView :=
  {| x := 0; y := 0; width := 120; height := 30; _old_pos := None |}.
Definition pt (a b : Z) : QPoint := {| px := a; py := b |}.

End ViewSamples.

(** * Properties of the Monitor process *)

Module OverlayProofs.
Import Py Eff Overlay SpecWords Samples.

(** ** Strings *)

Lemma prefix_app (n h : string) :
  String.prefix n h = true <-> exists b, h = n ++ b.
Proof.
  revert h; induction n as [|c n IH]; intros h.
  - split; [intros _; now exists h | intros _; now destruct h].
  - destruct h as [|d h]; simpl.
    + split; [discriminate | intros [b Hb]; discriminate].
    + destruct (Ascii.ascii_dec c d) as [->|Hcd].
      * rewrite IH. split; intros [b Hb]; exists b; [now rewrite Hb | now inversion Hb].
      * split; [discriminate | intros [b Hb]; simpl in Hb; congruence].
Qed.

(** [str_in] is containment as a substring. *)
Lemma str_in_substring (n h : string) :
  str_in n h = true <-> exists a b, h = a ++ n ++ b.
Proof.
  induction h as [|d h IH].
  - change (str_in n "") with (String.prefix n "" || false)%bool.
    rewrite orb_false_r, prefix_app. split.
    + intros [b Hb]. now exists "", b.
    + intros [a [b Hab]]. destruct a; simpl in Hab; [now exists b | discriminate].
  - change (str_in n (String d h)) with (String.prefix n (String d h) || str_in n h)%bool.
    rewrite orb_true_iff, prefix_app, IH. split.
    + intros [[b Hb] | [a [b Hab]]].
      * now exists "", b.
      * exists (String d a), b. simpl. now rewrite Hab.
    + intros [a [b Hab]]. destruct a as [|c a]; simpl in Hab.
      * left. now exists b.
      * right. inversion Hab. now exists a, b.
Qed.

Lemma list_in_In (x : string) (xs : list string) :
  list_in x xs = true <-> In x xs.
Proof.
  unfold list_in. rewrite existsb_exists. split.
  - intros [y [Hy Heq]]. apply String.eqb_eq in Heq. now subst.
  - intros H. exists x. split; [assumption | apply String.eqb_refl].
Qed.

(** ** The fallback scan *)

Lemma signature_found_true (p : proc) :
  signature_found p = inr true <-> signature_holds p.
Proof.
  unfold signature_found, signature_holds.
  destruct (name p) as [nm|]; [|split; [discriminate|]; intros (? & ? & ? & _); discriminate].
  destruct (cmdline p) as [[|a args]|]; lazy iota beta.
  - rewrite andb_false_r. split; [discriminate|].
    intros (nm' & args' & _ & Hc & _ & Hin). inversion Hc; subst. destruct Hin.
  - split.
    + intros H. injection H as H. apply andb_true_iff in H. destruct H as [Hn Hk].
      exists nm, (a :: args). repeat split; [assumption | now apply list_in_In].
    + intros (nm' & args' & Hn & Hc & Hs & Hin).
      inversion Hn; inversion Hc; subst. apply list_in_In in Hin.
      now rewrite Hs, Hin.
  - rewrite andb_false_r. split; [discriminate|].
    intros (nm' & args' & _ & Hc & _). discriminate.
Qed.

Lemma signature_found_named (p : proc) :
  name p <> None -> exists b, signature_found p = inr b.
Proof.
  unfold signature_found. destruct (name p); [eauto | congruence].
Qed.

Lemma scan_named (table : list proc) :
  Forall (fun p => name p <> None) table ->
  exists b, scan table = inr b /\ (b = true <-> exists p, In p table /\ signature_holds p).
Proof.
  induction 1 as [|p rest Hp _ IH]; simpl.
  - exists false. split; [reflexivity|]. split; [discriminate | intros [p [[] _]]].
  - destruct (signature_found_named p Hp) as [b Hb]. rewrite Hb. destruct b.
    + exists true. split; [reflexivity|]. split; [|reflexivity].
      intros _. exists p. split; [now left | now apply signature_found_true].
    + destruct IH as [b [Hscan Hiff]]. exists b. split; [assumption|].
      rewrite Hiff. split.
      * intros [q [Hq Hs]]. exists q. split; [now right | assumption].
      * intros [q [[<-|Hq] Hs]].
        -- apply signature_found_true in Hs. congruence.
        -- now exists q.
Qed.

(** The three branches of [is_alive]. *)
Lemma is_alive_no_pid (table : list proc) :
  is_alive {| target_pid := None |} table = scan table.
Proof. reflexivity. Qed.


Lemma is_alive_pid_0 (table : list proc) :
  is_alive {| target_pid := Some 0 |} table = scan table.
Proof. reflexivity. Qed.


(** C1, as the specification words it, fails in both directions: a
    process started as [python /opt/ComfyUI/main.py] has both substrings and
    is not detected, and [Python.exe main.py] is detected although its name
    does not contain the configured substring. *)
Lemma fallback_substring_rule_refuted :
  (is_alive {| target_pid := None |} table_full_path = inr false /\
   spec_fallback_alive table_full_path = true) /\
  (is_alive {| target_pid := None |} table_capitalised = inr true /\
   spec_fallback_alive table_capitalised = false).
Proof. repeat split; vm_compute; reflexivity. Qed.

(** C1 (amended): on a process table in which every name could be read, the
    fallback detector reports alive if and only if some process has a
    lower-cased name that contains "python" AND a command line that has an
    argument equal to "main.py"; a process meeting one condition only never
    makes it report alive. *)
Theorem fallback_alive_iff_signature (table : list proc) :
  Forall (fun p => name p <> None) table ->
  exists b,
    is_alive {| target_pid := None |} table = inr b /\
    (b = true <->
     exists p nm args,
       In p table /\ name p = Some nm /\ cmdline p = Some args /\
       str_in "python" (lower nm) = true /\ In "main.py" args).
Proof.
  intros Hnamed. rewrite is_alive_no_pid.
  destruct (scan_named Hnamed) as [b [Hscan Hiff]].
  exists b. split; [assumption|]. rewrite Hiff. split.
  - intros [p [Hp (nm & args & H1 & H2 & H3 & H4)]]. now exists p, nm, args.
  - intros (p & nm & args & Hp & H1 & H2 & H3 & H4).
    exists p. split; [assumption | now exists nm, args].
Qed.

Lemma fallback_alive_iff_signature_witness :
  Forall (fun p => name p <> None) table_one_condition_each /\
  exists b,
    is_alive {| target_pid := None |} table_one_condition_each = inr b /\
    (b = true <->
     exists p nm args,
       In p table_one_condition_each /\ name p = Some nm /\ cmdline p = Some args /\
       str_in "python" (lower nm) = true /\ In "main.py" args).
Proof.
  assert (H : Forall (fun p => name p <> None) table_one_condition_each)
    by (repeat constructor; discriminate).
  split; [exact H | exact (fallback_alive_iff_signature H)].
Defined.

Example fallback_one_condition_each :
  is_alive {| target_pid := None |} table_one_condition_each = inr false.
Proof. reflexivity. Qed.

(** A name that psutil could not read stops the scan with an
    AttributeError, which no [except] clause of [is_alive] handles. *)
Example unreadable_name_raises :
  is_alive {| target_pid := None |} table_unreadable_name = inl AttributeError.
Proof. reflexivity. Qed.

(** ** Liveness by pid *)

(** C3: the docstring of [is_alive] reads "if the PID is passed explicitly,
    check it", yet [--pid 0] is passed explicitly and is not checked: the
    test is on the truth value of [target_pid], and 0 is false.  On a table
    that holds pid 0 and no ComfyUI, [is_alive] answers from the name and
    command-line scan and says not alive. *)
Theorem pid_0_takes_fallback :
  is_alive (snd (main_models (Some 0))) table_with_pid_0 = inr false /\
  pid_exists table_with_pid_0 0 = true /\
  is_alive (snd (main_models (Some 0))) table_with_pid_0 =
  is_alive (snd (main_models None)) table_with_pid_0.
Proof. repeat split. Qed.

(** ** The telemetry model *)

Ltac eff :=
  unfold initialize, get_free_memory_mb, shutdown, _update_vram, update_text,
    logger, call, except_NVMLError, try_except, bind, ret, gets, modify in *.

Lemma shutdown_calls_add_shutdown (w : World) :
  shutdown_calls (add_call nvmlShutdown w) = S (shutdown_calls w).
Proof.
  unfold shutdown_calls, add_call; simpl.
  rewrite filter_app, length_app; simpl. lia.
Qed.

Lemma init_calls_add_init (w : World) :
  init_calls (add_call nvmlInit w) = S (init_calls w).
Proof.
  unfold init_calls, add_call; simpl.
  rewrite filter_app, length_app; simpl. lia.
Qed.

Lemma shutdown_initialized (nvml : Nvml) (w : World) :
  _initialized (vram_model w) = true ->
  exists l, shutdown nvml w = (inr tt, add_log l (add_call nvmlShutdown w)).
Proof.
  intros Hi. eff. simpl. rewrite Hi.
  destruct (on_nvmlShutdown nvml (nvml_calls w)) as [[]|code]; simpl; eauto.
Qed.

Lemma shutdown_uninitialized (nvml : Nvml) (w : World) :
  _initialized (vram_model w) = false -> shutdown nvml w = (inr tt, w).
Proof. intros Hi. eff. simpl. now rewrite Hi. Qed.

(** C2, as stated, fails: after a successful [initialize] a second
    [shutdown] calls [nvmlShutdown] a second time. *)
Lemma second_shutdown_releases_again :
  let nvml := gpu_nvml 5242879 in
  let w1 := snd (shutdown nvml ready_world) in
  let w2 := snd (shutdown nvml w1) in
  shutdown_calls ready_world = 0%nat /\
  shutdown_calls w1 = 1%nat /\
  shutdown_calls w2 = 2%nat /\
  w2 <> w1.
Proof. repeat split; try reflexivity. vm_compute. discriminate. Qed.

(** C2 (amended): [shutdown] never raises and never changes the model; it
    calls [nvmlShutdown] once when the model is initialized and leaves the
    whole state alone when it is not.  So a second [shutdown] is a no-op on
    an uninitialized model, and on an initialized one it releases again. *)
Theorem shutdown_releases_when_initialized (nvml : Nvml) (w : World) :
  let w1 := snd (shutdown nvml w) in
  let w2 := snd (shutdown nvml w1) in
  fst (shutdown nvml w) = inr tt /\
  fst (shutdown nvml w1) = inr tt /\
  vram_model w1 = vram_model w /\
  vram_model w2 = vram_model w /\
  if _initialized (vram_model w)
  then shutdown_calls w1 = S (shutdown_calls w) /\
       shutdown_calls w2 = S (S (shutdown_calls w))
  else w1 = w /\ w2 = w.
Proof.
  destruct (_initialized (vram_model w)) eqn:Hi; cbv zeta.
  - destruct (shutdown_initialized nvml w Hi) as [l Hs]. rewrite Hs; simpl.
    assert (Hi1 : _initialized (vram_model (add_log l (add_call nvmlShutdown w))) = true)
      by exact Hi.
    destruct (shutdown_initialized nvml _ Hi1) as [l' Hs']. rewrite Hs'; simpl.
    repeat split.
    + apply shutdown_calls_add_shutdown.
    + change (shutdown_calls (add_call nvmlShutdown (add_log l (add_call nvmlShutdown w)))
              = S (S (shutdown_calls w))).
      rewrite shutdown_calls_add_shutdown. f_equal. apply shutdown_calls_add_shutdown.
  - rewrite (shutdown_uninitialized nvml w Hi); simpl.
    rewrite (shutdown_uninitialized nvml w Hi); simpl. repeat split.
Qed.


Lemma initialize_failure (nvml : Nvml) (w : World) :
  init_fails nvml w ->
  fst (initialize nvml w) = inr tt /\
  _initialized (vram_model (snd (initialize nvml w))) = false.
Proof.
  intros Hf. eff. simpl.
  destruct (on_nvmlInit nvml (nvml_calls w)) as [[]|code] eqn:Hinit; simpl.
  - destruct Hf as [[c Hc] | [c Hc]]; [congruence|].
    rewrite Hc; simpl. split; reflexivity.
  - split; reflexivity.
Qed.

Lemma get_free_memory_mb_uninitialized (nvml : Nvml) (w : World) :
  _initialized (vram_model w) = false ->
  get_free_memory_mb nvml w = (inr None, w).
Proof. intros Hi. eff. simpl. now rewrite Hi. Qed.

Lemma get_free_memory_mb_no_handle (nvml : Nvml) (w : World) :
  handle_truthy (_handle (vram_model w)) = false ->
  get_free_memory_mb nvml w = (inr None, w).
Proof. intros Hh. eff. simpl. rewrite Hh. now rewrite orb_true_r. Qed.

Lemma get_free_memory_mb_query (nvml : Nvml) (w : World) (p : Z) :
  _initialized (vram_model w) = true ->
  _handle (vram_model w) = Some p ->
  p <> 0 ->
  get_free_memory_mb nvml w =
  match on_nvmlDeviceGetMemoryInfo nvml (nvml_calls w) p with
  | NVML_SUCCESS mem_info =>
      (inr (Some (free mem_info / 1048576)), add_call (nvmlDeviceGetMemoryInfo p) w)
  | NVML_ERROR _ =>
      (inr None, add_log WARNING (add_call (nvmlDeviceGetMemoryInfo p) w))
  end.
Proof.
  intros Hi Hh Hp. apply Z.eqb_neq in Hp. eff.
  cbv beta iota. rewrite Hi, Hh. unfold handle_truthy. rewrite Hp.
  cbv beta iota delta [negb orb].
  now destruct (on_nvmlDeviceGetMemoryInfo nvml (nvml_calls w) p).
Qed.

Lemma update_vram_uninitialized (nvml : Nvml) (w : World) :
  _initialized (vram_model w) = false ->
  _update_vram nvml w = (inr tt, add_shown "VRAM: Err" w).
Proof.
  intros Hi. unfold _update_vram, bind.
  now rewrite (get_free_memory_mb_uninitialized nvml w Hi).
Qed.

Lemma poll_cycles_uninitialized (nvml : Nvml) (n : nat) (w : World) :
  _initialized (vram_model w) = false ->
  fst (poll_cycles nvml n w) = inr tt /\
  shown (snd (poll_cycles nvml n w)) = (shown w ++ repeat "VRAM: Err" n)%list /\
  vram_model (snd (poll_cycles nvml n w)) = vram_model w /\
  nvml_calls (snd (poll_cycles nvml n w)) = nvml_calls w.
Proof.
  revert w; induction n as [|n IH]; intros w Hi; simpl.
  - rewrite app_nil_r. repeat split.
  - unfold bind. rewrite (update_vram_uninitialized nvml w Hi).
    destruct (IH (add_shown "VRAM: Err" w) Hi) as (H1 & H2 & H3 & H4).
    repeat split; try assumption.
    rewrite H2. simpl. now rewrite <- app_assoc.
Qed.

(** C6: once [initialize] has failed the model is uninitialized, and it
    stays so through any number of poll cycles: each cycle shows the error
    text, none calls the library (so none calls [nvmlInit] again), and the
    next [get_free_memory_mb] answers [None]. *)
Theorem failed_initialize_never_retried (nvml : Nvml) (w : World) (n : nat) :
  init_fails nvml w ->
  let w1 := snd (initialize nvml w) in
  let w2 := snd (poll_cycles nvml n w1) in
  fst (initialize nvml w) = inr tt /\
  _initialized (vram_model w1) = false /\
  fst (poll_cycles nvml n w1) = inr tt /\
  shown w2 = (shown w1 ++ repeat "VRAM: Err" n)%list /\
  _initialized (vram_model w2) = false /\
  nvml_calls w2 = nvml_calls w1 /\
  init_calls w2 = init_calls w1 /\
  fst (get_free_memory_mb nvml w2) = inr None.
Proof.
  intros Hf. cbv zeta.
  destruct (initialize_failure Hf) as [Hok Hi].
  destruct (poll_cycles_uninitialized nvml n _ Hi) as (H1 & H2 & H3 & H4).
  assert (Hi2 : _initialized (vram_model (snd (poll_cycles nvml n (snd (initialize nvml w)))))
                = false) by (now rewrite H3).
  repeat split; try assumption.
  - unfold init_calls. now rewrite H4.
  - now rewrite (get_free_memory_mb_uninitialized nvml _ Hi2).
Qed.

Lemma failed_initialize_never_retried_witness :
  init_fails no_driver_nvml World_init /\
  shown (snd (poll_cycles no_driver_nvml 100 (snd (initialize no_driver_nvml World_init))))
  = repeat "VRAM: Err" 100 /\
  init_calls (snd (poll_cycles no_driver_nvml 100
                     (snd (initialize no_driver_nvml World_init)))) = 1%nat.
Proof.
  assert (Hf : init_fails no_driver_nvml World_init) by (left; exists 9; reflexivity).
  destruct (failed_initialize_never_retried 100 Hf) as (_ & _ & _ & Hs & _ & _ & Hc & _).
  split; [exact Hf|]. split; [exact Hs | exact Hc].
Defined.


Example str_of_int_samples :
  str_of_int 0 = "0" /\ str_of_int 4 = "4" /\ str_of_int 4096 = "4096" /\
  str_of_int 812 = "812".
Proof. repeat split. Qed.

(** A whole run of the Monitor on a working driver: first text, two polls,
    cleanup. *)
Example monitor_run :
  let nvml := gpu_nvml 4294967296 in
  let w := snd (cleanup nvml (snd (poll_cycles nvml 2
                 (snd (OverlayController_init nvml World_init))))) in
  shown w = ["VRAM: 4096 MB"; "VRAM: 4096 MB"; "VRAM: 4096 MB"] /\
  init_calls w = 1%nat /\ shutdown_calls w = 1%nat.
Proof. repeat split. Qed.

Lemma label_text_add_shown (text : string) (w : World) :
  label_text (add_shown text w) = Some text.
Proof.
  change (label_text (add_shown text w))
    with (last (map Some (shown w ++ [text])%list) None).
  rewrite map_app. apply last_last.
Qed.

Lemma get_free_memory_mb_returns (nvml : Nvml) (w : World) :
  exists r w', get_free_memory_mb nvml w = (inr r, w') /\ shown w' = shown w.
Proof.
  destruct (_initialized (vram_model w)) eqn:Hi.
  - destruct (_handle (vram_model w)) as [p|] eqn:Hh.
    + destruct (Z.eq_dec p 0) as [->|Hp].
      * rewrite get_free_memory_mb_no_handle by (now rewrite Hh). eauto.
      * rewrite (get_free_memory_mb_query nvml w Hi Hh Hp).
        destruct (on_nvmlDeviceGetMemoryInfo nvml (nvml_calls w) p); eauto.
    + rewrite get_free_memory_mb_no_handle by (now rewrite Hh). eauto.
  - rewrite (get_free_memory_mb_uninitialized nvml w Hi). eauto.
Qed.

(** The text of one poll cycle, from what [get_free_memory_mb] returned. *)
Lemma update_vram_shows (nvml : Nvml) (w : World) :
  exists r w',
    get_free_memory_mb nvml w = (inr r, w') /\
    _update_vram nvml w =
    (inr tt,
     add_shown match r with
               | Some mb => "VRAM: " ++ str_of_int mb ++ " MB"
               | None => "VRAM: Err"
               end w') /\
    shown w' = shown w.
Proof.
  destruct (get_free_memory_mb_returns nvml w) as (r & w' & Hg & Hs).
  exists r, w'. split; [assumption|]. split; [|assumption].
  unfold _update_vram, bind. rewrite Hg. now destruct r.
Qed.

Lemma poll_cycles_returns (nvml : Nvml) (n : nat) (w : World) :
  fst (poll_cycles nvml n w) = inr tt /\
  List.length (shown (snd (poll_cycles nvml n w))) = (List.length (shown w) + n)%nat.
Proof.
  revert w; induction n as [|n IH]; intros w; simpl.
  - split; [reflexivity | lia].
  - destruct (update_vram_shows nvml w) as (r & w' & _ & Hu & Hs).
    unfold bind. rewrite Hu. destruct (IH (add_shown match r with
               | Some mb => "VRAM: " ++ str_of_int mb ++ " MB"
               | None => "VRAM: Err"
               end w')) as [H1 H2].
    split; [assumption|]. rewrite H2. simpl. rewrite length_app, Hs. simpl. lia.
Qed.

(** C9: when the query succeeds, the value is the free byte count divided
    by 1048576 and rounded down (for a byte count, which is not negative,
    that is truncation), and the label reads "VRAM: {value} MB"; 5242879
    bytes give 4. *)
Theorem free_memory_mb_floor (nvml : Nvml) (w : World) (p : Z) (mem_info : c_nvmlMemory_t) :
  _initialized (vram_model w) = true ->
  _handle (vram_model w) = Some p ->
  p <> 0 ->
  on_nvmlDeviceGetMemoryInfo nvml (nvml_calls w) p = NVML_SUCCESS mem_info ->
  0 <= free mem_info ->
  let mb := free mem_info / 1048576 in
  fst (get_free_memory_mb nvml w) = inr (Some mb) /\
  mb = Z.quot (free mem_info) 1048576 /\
  1048576 * mb <= free mem_info < 1048576 * mb + 1048576 /\
  fst (_update_vram nvml w) = inr tt /\
  label_text (snd (_update_vram nvml w)) = Some ("VRAM: " ++ str_of_int mb ++ " MB") /\
  (free mem_info = 5242879 ->
   mb = 4 /\ label_text (snd (_update_vram nvml w)) = Some "VRAM: 4 MB").
Proof.
  intros Hi Hh Hp Hq Hfree mb.
  assert (Hg : get_free_memory_mb nvml w =
               (inr (Some mb), add_call (nvmlDeviceGetMemoryInfo p) w))
    by (rewrite (get_free_memory_mb_query nvml w Hi Hh Hp), Hq; reflexivity).
  assert (Hu : _update_vram nvml w =
               (inr tt, add_shown ("VRAM: " ++ str_of_int mb ++ " MB")
                          (add_call (nvmlDeviceGetMemoryInfo p) w)))
    by (unfold _update_vram, bind; rewrite Hg; reflexivity).
  rewrite Hg, Hu; simpl fst; simpl snd. rewrite label_text_add_shown.
  repeat split.
  - unfold mb. symmetry. apply Z.quot_div_nonneg; lia.
  - unfold mb. apply Z.mul_div_le; lia.
  - unfold mb. pose proof (Z.mod_pos_bound (free mem_info) 1048576 ltac:(lia)).
    pose proof (Z.div_mod (free mem_info) 1048576 ltac:(lia)). lia.
  - unfold mb. rewrite H. reflexivity.
  - unfold mb. rewrite H. reflexivity.
Qed.

Lemma free_memory_mb_floor_witness :
  fst (get_free_memory_mb (gpu_nvml 5242879) ready_world) = inr (Some 4) /\
  label_text (snd (_update_vram (gpu_nvml 5242879) ready_world)) = Some "VRAM: 4 MB".
Proof.
  pose proof (@free_memory_mb_floor (gpu_nvml 5242879) ready_world 140737488355328
                {| total := 8589934592; free := 5242879; used := 8589934592 - 5242879 |}
                eq_refl eq_refl ltac:(discriminate) eq_refl ltac:(discriminate)) as H.
  cbv zeta in H. destruct H as (Hg & _ & _ & _ & _ & H4).
  split; [exact Hg | exact (proj2 (H4 eq_refl))].
Defined.

(** C10: [get_free_memory_mb] always returns: [None] when the model is not
    initialized, when it has no device handle and when the query fails, so
    every poll cycle returns after showing either the value or the error
    text, and so does any number of cycles. *)
Theorem get_free_memory_mb_total (nvml : Nvml) (w : World) :
  exists r text,
    fst (get_free_memory_mb nvml w) = inr r /\
    fst (_update_vram nvml w) = inr tt /\
    shown (snd (_update_vram nvml w)) = (shown w ++ [text])%list /\
    text = match r with
           | Some mb => "VRAM: " ++ str_of_int mb ++ " MB"
           | None => "VRAM: Err"
           end /\
    (_initialized (vram_model w) = false -> r = None) /\
    (handle_truthy (_handle (vram_model w)) = false -> r = None) /\
    (forall p code,
       _handle (vram_model w) = Some p ->
       on_nvmlDeviceGetMemoryInfo nvml (nvml_calls w) p = NVML_ERROR code ->
       r = None) /\
    (forall n, fst (poll_cycles nvml n w) = inr tt /\
               List.length (shown (snd (poll_cycles nvml n w)))
               = (List.length (shown w) + n)%nat).
Proof.
  destruct (update_vram_shows nvml w) as (r & w' & Hg & Hu & Hs).
  exists r, match r with
            | Some mb => "VRAM: " ++ str_of_int mb ++ " MB"
            | None => "VRAM: Err"
            end.
  rewrite Hg, Hu; simpl fst; simpl snd.
  split; [reflexivity|]. split; [reflexivity|].
  split; [unfold add_shown; simpl; now rewrite Hs|]. split; [reflexivity|].
  split; [|split; [|split]].
  - intros Hi. rewrite (get_free_memory_mb_uninitialized nvml w Hi) in Hg. congruence.
  - intros Hh. rewrite (get_free_memory_mb_no_handle nvml w Hh) in Hg. congruence.
  - intros p code Hh Hq.
    destruct (_initialized (vram_model w)) eqn:Hi;
      [|rewrite (get_free_memory_mb_uninitialized nvml w Hi) in Hg; congruence].
    destruct (Z.eq_dec p 0) as [->|Hp].
    + rewrite get_free_memory_mb_no_handle in Hg by (now rewrite Hh). congruence.
    + rewrite (get_free_memory_mb_query nvml w Hi Hh Hp), Hq in Hg. congruence.
  - intros n. apply poll_cycles_returns.
Qed.


End OverlayProofs.

(** * Properties of the supervisor *)

Module NodesProofs.
Import Py Eff Nodes HostSamples.

Ltac eff :=
  unfold run, start_overlay, stop_overlay, is_running, os_path_exists, Popen_new,
    Popen_poll, Popen_terminate, Popen_wait, Popen_kill, except_OSError,
    except_TimeoutExpired, logger, try_except, bind, ret, gets, modify in *.

Lemma spawned_add_log (l : log_level) (w : World) : spawned (add_log l w) = spawned w.
Proof. reflexivity. Qed.

Lemma spawned_add_event (e : os_event) (w : World) :
  spawned (add_event e w) = (spawned w + if is_spawn e then 1 else 0)%nat.
Proof.
  unfold spawned, add_event; simpl. rewrite filter_app, length_app; simpl.
  now destruct (is_spawn e).
Qed.

(** [is_running] says true exactly when there is a handle and the poll
    finds its process still running. *)
Lemma is_running_true (host : Host) (w : World) :
  fst (is_running host w) = inr true <->
  exists child, _process w = Some child /\ on_poll host (os_events w) child = None.
Proof.
  eff. simpl. destruct (_process w) as [child|]; simpl.
  - destruct (on_poll host (os_events w) child) eqn:Hp; simpl.
    + split; [discriminate | intros (c & Hc & Hn); inversion Hc; subst; congruence].
    + split; [intros _; now exists child | reflexivity].
  - split; [discriminate | intros (c & Hc & _); discriminate].
Qed.

Lemma is_running_returns (host : Host) (w : World) :
  exists b, fst (is_running host w) = inr b.
Proof.
  eff. simpl. destruct (_process w) as [child|]; simpl; [|eauto].
  destruct (on_poll host (os_events w) child); simpl; eauto.
Qed.

Lemma start_overlay_running (host : Host) (w : World) (child : Popen) :
  _process w = Some child ->
  on_poll host (os_events w) child = None ->
  start_overlay host w = (inr tt, add_log INFO (add_event (ev_poll child None) w)).
Proof. intros Hc Hp. eff. simpl. rewrite Hc. simpl. now rewrite Hp. Qed.

(** Case analysis on the next answer of the operating system. *)
Ltac answer :=
  match goal with
  | |- context [on_poll ?h ?t ?c] => destruct (on_poll h t c) eqn:?
  | |- context [on_exists ?h ?t ?p] => destruct (on_exists h t p) eqn:?
  | |- context [on_Popen ?h ?t ?c ?d] => destruct (on_Popen h t c d) eqn:?
  | |- context [on_wait ?h ?t ?c ?d] => destruct (on_wait h t c d) eqn:?
  end; simpl.

Lemma start_overlay_returns (host : Host) (w : World) :
  fst (start_overlay host w) = inr tt.
Proof.
  eff. simpl. destruct (_process w) as [child|]; simpl; repeat answer; reflexivity.
Qed.

(** [start_overlay] when nothing is running: [w] is the state after the
    poll of [is_running], if there was one. *)
Lemma start_overlay_launch (host : Host) (w : World) :
  let script_path := path_join host (current_dir host) "mvu_overlay_app.py" in
  let cmd := [sys_executable host; script_path; "--pid"; str_of_int (getpid host)] in
  let w1 := add_event (ev_exists script_path (on_exists host (os_events w) script_path)) w in
  let r := on_Popen host (os_events w1) cmd (current_dir host) in
  let w2 := add_event (ev_Popen cmd (current_dir host) r) w1 in
  forall w0,
    is_running host w0 = (inr false, w) ->
    start_overlay host w0 =
    if on_exists host (os_events w) script_path then
      match r with
      | Spawned child => (inr tt, add_log INFO (set_process (Some child) w2))
      | Refused _ => (inr tt, add_log ERROR w2)
      end
    else (inr tt, add_log ERROR w1).
Proof.
  intros script_path cmd w1 r w2 w0 Hr.
  unfold start_overlay, bind. rewrite Hr. eff. simpl.
  fold script_path. subst w2 r w1 cmd.
  destruct (on_exists host (os_events w) script_path); simpl; [|reflexivity].
  answer; reflexivity.
Qed.

(** A call of [start_overlay] creates one process at most, and creates one
    only when [is_running] was false. *)
Lemma start_overlay_spawns_at_most_one (host : Host) (w : World) :
  (spawned (snd (start_overlay host w)) <= S (spawned w))%nat /\
  (fst (is_running host w) = inr true ->
   spawned (snd (start_overlay host w)) = spawned w).
Proof.
  destruct (is_running host w) as [[e|[|]] w'] eqn:Hr.
  - exfalso. destruct (is_running_returns host w) as [b Hb]. rewrite Hr in Hb. discriminate.
  - assert (Ht : fst (is_running host w) = inr true) by (now rewrite Hr).
    apply is_running_true in Ht. destruct Ht as (child & Hc & Hp).
    rewrite (start_overlay_running host w Hc Hp). simpl.
    rewrite spawned_add_log, spawned_add_event. simpl. split; [lia | intros _; lia].
  - assert (Hw : spawned w' = spawned w).
    { revert Hr. eff. simpl. destruct (_process w) as [child|]; simpl.
      - destruct (on_poll host (os_events w) child); simpl; intros H; inversion H.
        rewrite spawned_add_event. simpl. lia.
      - intros H. now inversion H. }
    rewrite (@start_overlay_launch host w' w Hr). simpl. split; [|discriminate].
    destruct (on_exists host (os_events w') _).
    + destruct (on_Popen host _ _ _); simpl snd;
        rewrite spawned_add_log; unfold set_process, spawned in *; simpl;
        rewrite !filter_app, !length_app; simpl; lia.
    + simpl snd. rewrite spawned_add_log, spawned_add_event. simpl. lia.
Qed.

(** A missing script and a refused spawn leave the supervisor without a
    handle; a crashed overlay leaves its handle behind. *)
Example start_overlay_failures :
  _process (snd (start_overlay incomplete_host World_init)) = None /\
  _process (snd (start_overlay refusing_host World_init)) = None /\
  log (snd (start_overlay incomplete_host World_init)) = [ERROR] /\
  log (snd (start_overlay refusing_host World_init)) = [ERROR] /\
  _process (started_world crashing_host) = Some {| pid := 4242 |} /\
  fst (is_running crashing_host (started_world crashing_host)) = inr false.
Proof. repeat split. Qed.

(** The command line of the overlay. *)
Example start_overlay_command :
  os_events (started_world stubborn_host) =
  [ ev_exists "/opt/ComfyUI/custom_nodes/comfyui-vram-overlay/mvu_overlay_app.py" true;
    ev_Popen [ "/usr/bin/python3";
               "/opt/ComfyUI/custom_nodes/comfyui-vram-overlay/mvu_overlay_app.py";
               "--pid"; "812" ]
             "/opt/ComfyUI/custom_nodes/comfyui-vram-overlay"
             (Spawned {| pid := 4242 |}) ].
Proof. reflexivity. Qed.

(** [stop_overlay], branch by branch. *)
Lemma stop_overlay_no_handle (host : Host) (w : World) :
  _process w = None -> stop_overlay host w = (inr tt, add_log DEBUG w).
Proof. intros Hc. eff. simpl. now rewrite Hc. Qed.

Lemma stop_overlay_exited (host : Host) (w : World) (child : Popen) (rc : Z) :
  _process w = Some child ->
  on_poll host (os_events w) child = Some rc ->
  stop_overlay host w = (inr tt, add_log DEBUG (add_event (ev_poll child (Some rc)) w)).
Proof. intros Hc Hp. eff. simpl. rewrite Hc. simpl. now rewrite Hp. Qed.

Lemma stop_overlay_running (host : Host) (w : World) (child : Popen) :
  _process w = Some child ->
  on_poll host (os_events w) child = None ->
  let w1 := add_event (ev_terminate child) (add_log INFO (add_event (ev_poll child None) w)) in
  let rc := on_wait host (os_events w1) child 2 in
  let w2 := add_event (ev_wait child 2 rc) w1 in
  stop_overlay host w =
  (inr tt,
   add_log INFO
     (set_process None
        match rc with
        | Some _ => w2
        | None => add_event (ev_kill child) (add_log WARNING w2)
        end)).
Proof.
  intros Hc Hp. eff. simpl. rewrite Hc. simpl. rewrite Hp. simpl. rewrite Hc. simpl.
  now destruct (on_wait host _ child 2).
Qed.

Lemma stop_overlay_returns (host : Host) (w : World) :
  fst (stop_overlay host w) = inr tt.
Proof.
  destruct (_process w) as [child|] eqn:Hc.
  - destruct (on_poll host (os_events w) child) as [rc|] eqn:Hp.
    + now rewrite (stop_overlay_exited host w Hc Hp).
    + now rewrite (stop_overlay_running host w Hc Hp).
  - now rewrite (stop_overlay_no_handle host w Hc).
Qed.

(** C4: [_process] holds one handle at most, and while the process of that
    handle is running [start_overlay] returns at once: no process is
    spawned, no signal is sent and the handle stays.  So when a first
    [start_overlay] has spawned the Monitor and the Monitor is alive at the
    second, the two calls have spawned exactly one process. *)
Theorem start_overlay_while_running_is_noop (host : Host) (w : World) (child : Popen) :
  _process w = Some child ->
  fst (is_running host w) = inr true ->
  let w1 := snd (start_overlay host w) in
  fst (start_overlay host w) = inr tt /\
  _process w1 = Some child /\
  spawned w1 = spawned w /\
  os_events w1 = (os_events w ++ [ev_poll child None])%list /\
  (forall w0, w = snd (start_overlay host w0) ->
              spawned w = S (spawned w0) ->
              spawned w1 = S (spawned w0)).
Proof.
  intros Hc Hr. apply is_running_true in Hr. destruct Hr as (c & Hc' & Hp).
  assert (c = child) by congruence. subst c.
  cbv zeta. rewrite (start_overlay_running host w Hc Hp). simpl.
  repeat split; try assumption.
  - rewrite spawned_add_log, spawned_add_event. simpl. lia.
  - intros w0 _ Hs. rewrite spawned_add_log, spawned_add_event. simpl. lia.
Qed.

Lemma start_overlay_while_running_is_noop_witness :
  let w1 := started_world stubborn_host in
  let w2 := snd (start_overlay stubborn_host w1) in
  spawned World_init = 0%nat /\
  spawned w1 = 1%nat /\
  _process w2 = Some {| pid := 4242 |} /\
  spawned w2 = 1%nat.
Proof.
  pose proof (@start_overlay_while_running_is_noop stubborn_host
                (started_world stubborn_host) {| pid := 4242 |} eq_refl eq_refl) as H.
  cbv zeta in H. destruct H as (_ & Hp & _ & _ & H2).
  split; [reflexivity|]. split; [reflexivity|].
  split; [exact Hp | exact (H2 World_init eq_refl eq_refl)].
Defined.

Lemma signals_add_log (l : log_level) (w : World) : signals (add_log l w) = signals w.
Proof. reflexivity. Qed.

Lemma signals_add_event (e : os_event) (w : World) :
  signals (add_event e w) = (signals w ++ if is_signal e then [e] else [])%list.
Proof.
  unfold signals, add_event; simpl. rewrite filter_app; simpl.
  now destruct (is_signal e).
Qed.

(** C5: on a running handle [stop_overlay] polls, sends terminate, waits
    with a timeout of 2, sends kill only when that wait timed out (after
    it, never before), and has cleared the handle when it returns. *)
Theorem stop_overlay_terminate_wait_kill (host : Host) (w : World) (child : Popen) :
  _process w = Some child ->
  fst (is_running host w) = inr true ->
  let rc := on_wait host (os_events w ++ [ev_poll child None; ev_terminate child]) child 2 in
  let w1 := snd (stop_overlay host w) in
  fst (stop_overlay host w) = inr tt /\
  _process w1 = None /\
  os_events w1 =
    (os_events w ++ [ev_poll child None; ev_terminate child; ev_wait child 2 rc] ++
     match rc with
     | None => [ev_kill child]
     | Some _ => []
     end)%list /\
  signals w1 =
    (signals w ++ ev_terminate child ::
     match rc with
     | None => [ev_kill child]
     | Some _ => []
     end)%list.
Proof.
  intros Hc Hr. apply is_running_true in Hr. destruct Hr as (c & Hc' & Hp).
  assert (c = child) by congruence. subst c.
  cbv zeta. rewrite (stop_overlay_running host w Hc Hp). simpl fst; simpl snd.
  assert (He : ((os_events w ++ [ev_poll child None]) ++ [ev_terminate child]
                = os_events w ++ [ev_poll child None; ev_terminate child])%list)
    by (now rewrite <- app_assoc).
  rewrite He.
  destruct (on_wait host (os_events w ++ [ev_poll child None; ev_terminate child]) child 2)
    as [code|]; (split; [reflexivity|]); (split; [reflexivity|]); split.
  - simpl. now rewrite <- !app_assoc.
  - rewrite signals_add_log. unfold set_process, signals; simpl.
    rewrite !filter_app; simpl. rewrite app_nil_r, app_nil_r. reflexivity.
  - simpl. now rewrite <- !app_assoc.
  - rewrite signals_add_log. unfold set_process, signals; simpl.
    rewrite !filter_app; simpl. rewrite !app_nil_r, <- !app_assoc. reflexivity.
Qed.

Lemma stop_overlay_terminate_wait_kill_witness :
  signals (snd (stop_overlay stubborn_host (started_world stubborn_host)))
  = [ev_terminate {| pid := 4242 |}; ev_kill {| pid := 4242 |}] /\
  signals (snd (stop_overlay polite_host (started_world polite_host)))
  = [ev_terminate {| pid := 4242 |}] /\
  _process (snd (stop_overlay stubborn_host (started_world stubborn_host))) = None /\
  _process (snd (stop_overlay polite_host (started_world polite_host))) = None.
Proof.
  pose proof (@stop_overlay_terminate_wait_kill stubborn_host
                (started_world stubborn_host) {| pid := 4242 |} eq_refl eq_refl) as Hs.
  pose proof (@stop_overlay_terminate_wait_kill polite_host
                (started_world polite_host) {| pid := 4242 |} eq_refl eq_refl) as Hq.
  cbv zeta in Hs, Hq.
  destruct Hs as (_ & Hs1 & _ & Hs2). destruct Hq as (_ & Hq1 & _ & Hq2).
  split; [exact Hs2|]. split; [exact Hq2|]. split; [exact Hs1 | exact Hq1].
Defined.

(** C7: [run] returns the boolean it was given, whatever the operating
    system answers while the overlay is started or stopped: a missing
    script and a refused spawn are logged inside [start_overlay], and
    nothing is raised out of [run]. *)
Theorem run_passes_enabled_through (host : Host) (w : World) (enabled : bool) :
  fst (run host enabled w) = inr enabled.
Proof.
  unfold run, bind, logger, modify, ret.
  destruct enabled.
  - pose proof (start_overlay_returns host (add_log INFO w)) as H.
    destruct (start_overlay host (add_log INFO w)) as [[e|[]] w']; simpl in *;
      [discriminate | reflexivity].
  - pose proof (stop_overlay_returns host (add_log INFO w)) as H.
    destruct (stop_overlay host (add_log INFO w)) as [[e|[]] w']; simpl in *;
      [discriminate | reflexivity].
Qed.

(** C8: with no running process ([is_running] is false: no handle, or a
    handle whose process has exited) [stop_overlay] returns without
    raising, keeps [_process] as it is, sends no signal and spawns nothing;
    with no handle it asks nothing of the operating system at all. *)
Theorem stop_overlay_inactive_is_noop (host : Host) (w : World) :
  fst (is_running host w) = inr false ->
  let w1 := snd (stop_overlay host w) in
  fst (stop_overlay host w) = inr tt /\
  _process w1 = _process w /\
  signals w1 = signals w /\
  spawned w1 = spawned w /\
  (_process w = None -> os_events w1 = os_events w).
Proof.
  intros Hr. cbv zeta.
  destruct (_process w) as [child|] eqn:Hc.
  - destruct (on_poll host (os_events w) child) as [rc|] eqn:Hp.
    + rewrite (stop_overlay_exited host w Hc Hp). simpl fst; simpl snd.
      split; [reflexivity|]. split; [exact Hc|].
      rewrite signals_add_log, signals_add_event, spawned_add_log, spawned_add_event.
      simpl. rewrite app_nil_r. repeat split; [lia | discriminate].
    + assert (Ht : fst (is_running host w) = inr true)
        by (apply is_running_true; now exists child).
      congruence.
  - rewrite (stop_overlay_no_handle host w Hc). simpl. rewrite Hc. repeat split.
Qed.

Lemma stop_overlay_inactive_is_noop_witness :
  snd (stop_overlay polite_host World_init) = add_log DEBUG World_init /\
  _process (snd (stop_overlay polite_host
                   (snd (stop_overlay polite_host World_init)))) = None /\
  _process (snd (stop_overlay crashing_host (started_world crashing_host)))
  = Some {| pid := 4242 |} /\
  signals (snd (stop_overlay crashing_host (started_world crashing_host))) = [].
Proof.
  pose proof (@stop_overlay_inactive_is_noop polite_host
                (snd (stop_overlay polite_host World_init)) eq_refl) as H.
  pose proof (@stop_overlay_inactive_is_noop crashing_host
                (started_world crashing_host) eq_refl) as H'.
  cbv zeta in H, H'. destruct H as (_ & Hp & _). destruct H' as (_ & Hp' & Hs' & _).
  split; [reflexivity|]. split; [exact Hp|]. split; [exact Hp' | exact Hs'].
Defined.


End NodesProofs.

(** * More on the Monitor process *)

Module OverlayExtra.
Import Py Eff Overlay App Samples OverlayProofs.

(** ** Liveness *)



Lemma signature_found_raises (p : proc) (e : exn) :
  signature_found p = inl e <-> e = AttributeError /\ name p = None.
Proof.
  unfold signature_found. destruct (name p).
  - split; [discriminate | intros [_ H]; discriminate].
  - split; [intros H; inversion H; now split | intros [-> _]; reflexivity].
Qed.

(** X2: the fallback scan raises nothing but AttributeError, and raises it
    exactly when it reaches a process whose name could not be read before
    any process that matches. *)
Theorem fallback_raises_iff (table : list proc) (e : exn) :
  is_alive {| target_pid := None |} table = inl e <->
  e = AttributeError /\
  exists pre p post,
    table = (pre ++ p :: post)%list /\ name p = None /\
    Forall (fun q => signature_found q = inr false) pre.
Proof.
  rewrite is_alive_no_pid. induction table as [|a rest IH]; simpl.
  - split; [discriminate|]. intros [_ (pre & p & post & H & _)].
    destruct pre; discriminate.
  - destruct (signature_found a) as [e'|[|]] eqn:Ha.
    + apply signature_found_raises in Ha. destruct Ha as [-> Hn]. simpl. split.
      * intros H. inversion H. split; [reflexivity|].
        exists [], a, rest. repeat split; [assumption | constructor].
      * intros [-> _]. reflexivity.
    + split; [discriminate|]. intros [_ (pre & p & post & H & Hn & Hpre)].
      destruct pre as [|b pre]; simpl in H; inversion H; subst.
      * unfold signature_found in Ha. rewrite Hn in Ha. discriminate.
      * inversion Hpre; subst. congruence.
    + rewrite IH. split; intros [-> (pre & p & post & H & Hn & Hpre)];
        (split; [reflexivity|]).
      * exists (a :: pre), p, post. subst rest. repeat split; [assumption|].
        now constructor.
      * destruct pre as [|b pre]; simpl in H; inversion H; subst.
        -- unfold signature_found in Ha. rewrite Hn in Ha. discriminate.
        -- inversion Hpre; subst. now exists pre, p, post.
Qed.

Lemma signature_found_same_up_to_case (p q : proc) :
  same_up_to_case p q -> signature_found p = signature_found q.
Proof.
  intros [Hn Hc]. unfold signature_found. rewrite <- Hc.
  destruct (name p) as [n|], (name q) as [m|]; simpl in Hn; try discriminate;
    [|reflexivity].
  inversion Hn as [Hl]. now rewrite Hl.
Qed.

(** X3: the fallback scan does not see the letter case of process names:
    tables that differ in it only get the same answer. *)
Theorem fallback_ignores_name_case (t1 t2 : list proc) :
  Forall2 same_up_to_case t1 t2 ->
  is_alive {| target_pid := None |} t1 = is_alive {| target_pid := None |} t2.
Proof.
  rewrite !is_alive_no_pid. induction 1 as [|p q t1 t2 Hpq _ IH]; simpl.
  - reflexivity.
  - rewrite (signature_found_same_up_to_case Hpq), IH. reflexivity.
Qed.

Lemma fallback_ignores_name_case_witness :
  is_alive {| target_pid := None |} table_upper_case = inr true.
Proof.
  assert (H : Forall2 same_up_to_case table_upper_case table_lower_case)
    by (repeat constructor).
  rewrite (fallback_ignores_name_case H). reflexivity.
Defined.

(** ** The telemetry model *)

Ltac count :=
  unfold init_calls, shutdown_calls; simpl;
  rewrite ?filter_app, ?length_app; simpl; try lia.

(** X4: [initialize] never raises and calls [nvmlInit] once; it asks for
    device 0 only when [nvmlInit] succeeded, and the model is initialized
    exactly when both calls succeeded, holding then the handle it got. *)
Theorem initialize_outcome (nvml : Nvml) (w : World) :
  let w1 := snd (initialize nvml w) in
  fst (initialize nvml w) = inr tt /\
  init_calls w1 = S (init_calls w) /\
  shutdown_calls w1 = shutdown_calls w /\
  shown w1 = shown w /\
  _initialized (vram_model w1) = init_succeeds nvml (nvml_calls w) /\
  match on_nvmlInit nvml (nvml_calls w) with
  | NVML_ERROR _ =>
      nvml_calls w1 = (nvml_calls w ++ [nvmlInit])%list /\
      _handle (vram_model w1) = _handle (vram_model w)
  | NVML_SUCCESS _ =>
      nvml_calls w1 = (nvml_calls w ++ [nvmlInit; nvmlDeviceGetHandleByIndex 0])%list /\
      match on_nvmlDeviceGetHandleByIndex nvml (nvml_calls w ++ [nvmlInit]) 0 with
      | NVML_SUCCESS h => _handle (vram_model w1) = Some h
      | NVML_ERROR _ => _handle (vram_model w1) = _handle (vram_model w)
      end
  end.
Proof.
  unfold init_succeeds. eff. simpl.
  destruct (on_nvmlInit nvml (nvml_calls w)) as [[]|code]; simpl.
  - destruct (on_nvmlDeviceGetHandleByIndex nvml (nvml_calls w ++ [nvmlInit]) 0)
      as [h|code]; simpl; repeat split; try count; now rewrite <- app_assoc.
  - repeat split; count.
Qed.

(** What one call of [get_free_memory_mb] leaves as it was, and the one
    call it makes. *)
Lemma get_free_memory_mb_frame (nvml : Nvml) (w : World) :
  let w1 := snd (get_free_memory_mb nvml w) in
  vram_model w1 = vram_model w /\
  shown w1 = shown w /\
  quit_requested w1 = quit_requested w /\
  nvml_calls w1 = (nvml_calls w ++ cycle_query (vram_model w))%list.
Proof.
  unfold cycle_query. cbv zeta.
  destruct (_initialized (vram_model w)) eqn:Hi.
  - destruct (_handle (vram_model w)) as [p|] eqn:Hh.
    + destruct (Z.eqb_spec p 0) as [->|Hp].
      * rewrite get_free_memory_mb_no_handle by (now rewrite Hh). simpl.
        now rewrite app_nil_r.
      * rewrite (get_free_memory_mb_query nvml w Hi Hh Hp).
        destruct (on_nvmlDeviceGetMemoryInfo nvml (nvml_calls w) p); simpl; repeat split.
    + rewrite get_free_memory_mb_no_handle by (now rewrite Hh). simpl.
      now rewrite app_nil_r.
  - rewrite (get_free_memory_mb_uninitialized nvml w Hi). simpl. now rewrite app_nil_r.
Qed.

Lemma update_vram_frame (nvml : Nvml) (w : World) :
  let w1 := snd (_update_vram nvml w) in
  fst (_update_vram nvml w) = inr tt /\
  vram_model w1 = vram_model w /\
  quit_requested w1 = quit_requested w /\
  nvml_calls w1 = (nvml_calls w ++ cycle_query (vram_model w))%list /\
  exists text, shown w1 = (shown w ++ [text])%list /\ vram_text text.
Proof.
  cbv zeta. destruct (update_vram_shows nvml w) as (r & w' & Hg & Hu & Hs).
  pose proof (get_free_memory_mb_frame nvml w) as Hf. rewrite Hg in Hf.
  cbv zeta in Hf. simpl in Hf. destruct Hf as (Hm & _ & Hq & Hc).
  rewrite Hu. simpl. repeat split; try assumption.
  eexists. split; [now rewrite Hs|].
  destruct r as [mb|]; [right; now exists mb | now left].
Qed.

Lemma cycle_query_calls (m : VramMonitorModel) :
  filter is_init_call (cycle_query m) = [] /\
  filter is_shutdown_call (cycle_query m) = [].
Proof.
  unfold cycle_query. destruct (_initialized m); [|now split].
  destruct (_handle m) as [p|]; [|now split]. now destruct (p =? 0).
Qed.

Lemma cycle_queries_calls (m : VramMonitorModel) (n : nat) :
  filter is_init_call (List.concat (repeat (cycle_query m) n)) = [] /\
  filter is_shutdown_call (List.concat (repeat (cycle_query m) n)) = [].
Proof.
  induction n as [|n [IH1 IH2]]; simpl; [now split|].
  rewrite !filter_app, IH1, IH2.
  now rewrite (proj1 (cycle_query_calls m)), (proj2 (cycle_query_calls m)).
Qed.

(** X5: poll cycles never touch the model, never ask to quit and call
    neither [nvmlInit] nor [nvmlShutdown]; every cycle of an initialized
    model with a handle sends its query again, whatever the earlier ones
    answered, and a model that is not in that state sends none. *)
Theorem poll_cycles_only_query (nvml : Nvml) (n : nat) (w : World) :
  let w1 := snd (poll_cycles nvml n w) in
  vram_model w1 = vram_model w /\
  quit_requested w1 = quit_requested w /\
  nvml_calls w1 = (nvml_calls w ++ List.concat (repeat (cycle_query (vram_model w)) n))%list /\
  init_calls w1 = init_calls w /\
  shutdown_calls w1 = shutdown_calls w.
Proof.
  cbv zeta.
  assert (H : vram_model (snd (poll_cycles nvml n w)) = vram_model w /\
              quit_requested (snd (poll_cycles nvml n w)) = quit_requested w /\
              nvml_calls (snd (poll_cycles nvml n w)) =
              (nvml_calls w ++ List.concat (repeat (cycle_query (vram_model w)) n))%list).
  { revert w. induction n as [|n IH]; intros w; simpl.
    - now rewrite app_nil_r.
    - destruct (update_vram_frame nvml w) as (Hr & Hm & Hq & Hc & _).
      unfold bind. destruct (_update_vram nvml w) as [[e|[]] w']; simpl in *;
        [discriminate|].
      destruct (IH w') as (Hm' & Hq' & Hc').
      rewrite Hm', Hq', Hc', Hm, Hq, Hc. repeat split. now rewrite <- app_assoc. }
  destruct H as (Hm & Hq & Hc). repeat split; try assumption.
  - unfold init_calls. rewrite Hc, filter_app, length_app.
    rewrite (proj1 (cycle_queries_calls (vram_model w) n)). simpl. lia.
  - unfold shutdown_calls. rewrite Hc, filter_app, length_app.
    rewrite (proj2 (cycle_queries_calls (vram_model w) n)). simpl. lia.
Qed.

(** A driver that fails every second query is asked every cycle, and the
    text recovers on the next cycle. *)
Example flaky_driver_run :
  let w := snd (poll_cycles flaky_nvml 4 (snd (initialize flaky_nvml World_init))) in
  shown w = ["VRAM: 4096 MB"; "VRAM: Err"; "VRAM: 4096 MB"; "VRAM: Err"] /\
  List.length (nvml_calls w) = 6%nat.
Proof. repeat split. Qed.


(** ** The timers and [main] *)

Lemma scan_raises (table : list proc) (e : exn) :
  scan table = inl e -> e = AttributeError.
Proof.
  induction table as [|a rest IH]; simpl; [discriminate|].
  destruct (signature_found a) as [e'|[|]] eqn:Ha; [|discriminate | exact IH].
  apply signature_found_raises in Ha. destruct Ha as [-> _]. simpl. congruence.
Qed.

Lemma is_alive_raises (pm : ProcessMonitorModel) (table : list proc) (e : exn) :
  is_alive pm table = inl e ->
  e = AttributeError /\ pid_truthy (target_pid pm) = false.
Proof.
  destruct pm as [[p|]]; unfold is_alive; simpl.
  - destruct (p =? 0) eqn:Hp; simpl; [|discriminate].
    intros H. split; [now apply (scan_raises table) | reflexivity].
  - intros H. split; [now apply (scan_raises table) | reflexivity].
Qed.



Lemma check_process_alive_frame (pm : ProcessMonitorModel) (table : list proc) (w : World) :
  let r := _check_process_alive pm table w in
  vram_model (snd r) = vram_model w /\
  nvml_calls (snd r) = nvml_calls w /\
  shown (snd r) = shown w /\
  (fst r = inr tt \/
   fst r = inl AttributeError /\ pid_truthy (target_pid pm) = false /\ snd r = w).
Proof.
  cbv zeta. unfold _check_process_alive.
  destruct (is_alive pm table) as [e|[|]] eqn:Ha; simpl.
  - destruct (is_alive_raises _ _ Ha) as [-> Hp]. repeat split. now right.
  - repeat split. now left.
  - repeat split. now left.
Qed.

Lemma exec_after_quit (nvml : Nvml) (pm : ProcessMonitorModel) (ticks : list timeout)
    (w : World) :
  quit_requested w = true -> exec nvml pm ticks w = (inr tt, w).
Proof.
  intros Hq. destruct ticks; [reflexivity|].
  simpl. unfold bind, gets. now rewrite Hq.
Qed.

Lemma exec_step (nvml : Nvml) (pm : ProcessMonitorModel) (t : timeout)
    (rest : list timeout) (w : World) :
  quit_requested w = false ->
  exec nvml pm (t :: rest) w =
  match slot nvml pm t w with
  | (inr _, w') => exec nvml pm rest w'
  | (inl e, w') => (inl e, w')
  end.
Proof. intros Hq. simpl. unfold bind at 1. unfold gets. now rewrite Hq. Qed.



Lemma slot_frame (nvml : Nvml) (pm : ProcessMonitorModel) (t : timeout) (w : World) :
  let r := slot nvml pm t w in
  vram_model (snd r) = vram_model w /\
  init_calls (snd r) = init_calls w /\
  shutdown_calls (snd r) = shutdown_calls w /\
  (fst r = inr tt \/ fst r = inl AttributeError /\ pid_truthy (target_pid pm) = false) /\
  exists texts,
    shown (snd r) = (shown w ++ texts)%list /\ Forall vram_text texts /\
    (List.length texts <= if is_vram_timer t then 1 else 0)%nat.
Proof.
  cbv zeta. destruct t as [|table]; simpl.
  - destruct (update_vram_frame nvml w) as (Hr & Hm & _ & Hc & text & Hs & Ht).
    repeat split; try assumption.
    + unfold init_calls. rewrite Hc, filter_app, (proj1 (cycle_query_calls _)).
      now rewrite app_nil_r.
    + unfold shutdown_calls. rewrite Hc, filter_app, (proj2 (cycle_query_calls _)).
      now rewrite app_nil_r.
    + now left.
    + exists [text]. repeat split; [assumption | now constructor | simpl; lia].
  - destruct (check_process_alive_frame pm table w) as (Hm & Hc & Hs & Hr).
    repeat split; try assumption.
    + unfold init_calls. now rewrite Hc.
    + unfold shutdown_calls. now rewrite Hc.
    + destruct Hr as [Hr | (Hr & Hp & _)]; [now left | now right].
    + exists []. rewrite app_nil_r. repeat split; [assumption | constructor | simpl; lia].
Qed.

Lemma exec_frame (nvml : Nvml) (pm : ProcessMonitorModel) (ticks : list timeout)
    (w : World) :
  let r := exec nvml pm ticks w in
  vram_model (snd r) = vram_model w /\
  init_calls (snd r) = init_calls w /\
  shutdown_calls (snd r) = shutdown_calls w /\
  (fst r = inr tt \/ fst r = inl AttributeError /\ pid_truthy (target_pid pm) = false) /\
  exists texts,
    shown (snd r) = (shown w ++ texts)%list /\ Forall vram_text texts /\
    (List.length texts <= List.length (filter is_vram_timer ticks))%nat.
Proof.
  cbv zeta. revert w. induction ticks as [|t rest IH]; intros w.
  - simpl. repeat split; [now left|]. exists []. rewrite app_nil_r.
    repeat split; [constructor | simpl; lia].
  - destruct (quit_requested w) eqn:Hq.
    + rewrite exec_after_quit by assumption. simpl fst; simpl snd.
      repeat split; [now left|]. exists []. rewrite app_nil_r.
      repeat split; [constructor | simpl; lia].
    + rewrite exec_step by assumption.
      destruct (slot_frame nvml pm t w) as (Hm & Hi & Hs & Hr & texts & Ht & Hv & Hl).
      destruct (slot nvml pm t w) as [[e|u] w'] eqn:Hslot; simpl in *.
      * repeat split; try assumption.
        exists texts. repeat split; try assumption.
        destruct (is_vram_timer t); simpl; lia.
      * destruct (IH w') as (Hm' & Hi' & Hs' & Hr' & texts' & Ht' & Hv' & Hl').
        rewrite Hm', Hi', Hs'. repeat split; try assumption.
        exists (texts ++ texts')%list. rewrite Ht', Ht, <- app_assoc.
        repeat split; [now apply Forall_app|].
        rewrite length_app. destruct (is_vram_timer t); simpl; lia.
Qed.


Lemma bind_inr {W A B} (m : M W A) (k : A -> M W B) (w w' : W) (a : A) :
  m w = (inr a, w') -> bind m k w = k a w'.
Proof. intros H. unfold bind. now rewrite H. Qed.

Lemma bind_inl {W A B} (m : M W A) (k : A -> M W B) (w w' : W) (e : exn) :
  m w = (inl e, w') -> bind m k w = (inl e, w').
Proof. intros H. unfold bind. now rewrite H. Qed.

Lemma initialize_frame (nvml : Nvml) (w : World) :
  fst (initialize nvml w) = inr tt /\
  init_calls (snd (initialize nvml w)) = S (init_calls w) /\
  shutdown_calls (snd (initialize nvml w)) = shutdown_calls w /\
  shown (snd (initialize nvml w)) = shown w /\
  _initialized (vram_model (snd (initialize nvml w))) = init_succeeds nvml (nvml_calls w).
Proof.
  unfold init_succeeds. eff. simpl.
  destruct (on_nvmlInit nvml (nvml_calls w)) as [[]|code]; simpl.
  - destruct (on_nvmlDeviceGetHandleByIndex nvml (nvml_calls w ++ [nvmlInit]) 0)
      as [h|code]; simpl; repeat split; count.
  - repeat split; count.
Qed.

(** The state in which [main] enters the event loop. *)
Lemma main_startup (nvml : Nvml) (arg_pid : option Z) :
  exists w,
    (modify (set_model (fst (main_models arg_pid))) ;;
     VramOverlayView_init ;;
     OverlayController_init nvml)%eff World_init = (inr tt, w) /\
    _initialized (vram_model w) = init_succeeds nvml [] /\
    init_calls w = 1%nat /\
    shutdown_calls w = 0%nat /\
    exists text, shown w = ["Init..."; text] /\ vram_text text.
Proof.
  set (w0 := add_shown "Init..." (set_model (fst (main_models arg_pid)) World_init)).
  destruct (initialize_frame nvml w0) as (Hr & Hi & Hs & Hsh & Hinit).
  destruct (initialize nvml w0) as [[e|[]] w1] eqn:Hw1; simpl in *; [discriminate|].
  destruct (update_vram_frame nvml w1) as (Hr2 & Hm2 & _ & Hc2 & text & Hsh2 & Ht).
  destruct (_update_vram nvml w1) as [[e|[]] w2] eqn:Hw2; simpl in *; [discriminate|].
  exists w2. split.
  - erewrite bind_inr by reflexivity. erewrite bind_inr by reflexivity.
    unfold OverlayController_init. erewrite bind_inr by exact Hw1. exact Hw2.
  - rewrite Hm2, Hinit. repeat split.
    + unfold init_calls in *. rewrite Hc2, filter_app, (proj1 (cycle_query_calls _)).
      now rewrite app_nil_r.
    + unfold shutdown_calls in *. rewrite Hc2, filter_app, (proj2 (cycle_query_calls _)).
      now rewrite app_nil_r.
    + exists text. split; [now rewrite Hsh2, Hsh | assumption].
Qed.

Lemma main_unfold (nvml : Nvml) (arg_pid : option Z) (ticks : list timeout) (w : World) :
  (modify (set_model (fst (main_models arg_pid))) ;;
   VramOverlayView_init ;;
   OverlayController_init nvml)%eff World_init = (inr tt, w) ->
  main nvml arg_pid ticks World_init =
  match exec nvml (snd (main_models arg_pid)) ticks w with
  | (inr _, w') => cleanup nvml w'
  | (inl e, w') => (inl e, w')
  end.
Proof.
  intros H. unfold main. cbv zeta.
  set (w0 := add_shown "Init..." (set_model (fst (main_models arg_pid)) World_init)).
  assert (H0 : OverlayController_init nvml w0 = (inr tt, w)).
  { rewrite <- H. erewrite bind_inr by reflexivity. now erewrite bind_inr by reflexivity. }
  erewrite bind_inr by reflexivity. erewrite bind_inr by reflexivity.
  erewrite bind_inr by exact H0.
  unfold bind. now destruct (exec nvml (snd (main_models arg_pid)) ticks w) as [[e|u] w'].
Qed.


(** X9: the label of a run of [main] shows "Init..." first, then at least
    one text, and every text after the first is "VRAM: Err" or
    "VRAM: {n} MB"; there is one for the start and at most one per firing
    of the VRAM timer. *)
Theorem main_texts (nvml : Nvml) (arg_pid : option Z) (ticks : list timeout) :
  exists first texts,
    shown (snd (main nvml arg_pid ticks World_init)) = "Init..." :: first :: texts /\
    Forall vram_text (first :: texts) /\
    (List.length texts <= List.length (filter is_vram_timer ticks))%nat.
Proof.
  destruct (main_startup nvml arg_pid) as (w & Hw & _ & _ & _ & first & Hsh & Hf).
  rewrite (main_unfold nvml arg_pid ticks Hw).
  destruct (exec_frame nvml (snd (main_models arg_pid)) ticks w)
    as (_ & _ & _ & _ & texts & Ht & Hv & Hl).
  exists first, texts.
  assert (Hc : forall w', shown (snd (cleanup nvml w')) = shown w').
  { intros w'. unfold cleanup. destruct (_initialized (vram_model w')) eqn:Hi2.
    - destruct (shutdown_initialized nvml w' Hi2) as [l Hsd]. now rewrite Hsd.
    - now rewrite (shutdown_uninitialized nvml w' Hi2). }
  destruct (exec nvml (snd (main_models arg_pid)) ticks w) as [[e|u] w']; simpl in Ht;
    (split; [|split; [now constructor | assumption]]).
  - simpl. now rewrite Ht, Hsh.
  - now rewrite Hc, Ht, Hsh.
Qed.

(** A run on a driver without device 0, watching pid 812 until it is gone. *)
Example main_without_device :
  let w := snd (main no_device_nvml (Some 812)
                  [vram_timer; process_timer table_full_path; vram_timer;
                   process_timer table_with_pid_0; vram_timer]
                  World_init) in
  shown w = ["Init..."; "VRAM: Err"; "VRAM: Err"; "VRAM: Err"] /\
  nvml_calls w = [nvmlInit; nvmlDeviceGetHandleByIndex 0] /\
  quit_requested w = true.
Proof. repeat split. Qed.


End OverlayExtra.

(** * The window *)

Module ViewExtra.
Import View ViewSamples.

Lemma deliver_all_app (es es' : list mouse_event) (v : VramOverlayView) :
  deliver_all (es ++ es') v = deliver_all es' (deliver_all es v).
Proof. apply fold_left_app. Qed.

Lemma moves_while_dragging (ps : list QPoint) (v : VramOverlayView) (q : QPoint) :
  _old_pos v = Some q ->
  let v1 := deliver_all (map Move ps) v in
  x v1 = x v + (px (last ps q) - px q) /\
  y v1 = y v + (py (last ps q) - py q) /\
  width v1 = width v /\ height v1 = height v /\
  _old_pos v1 = Some (last ps q).
Proof.
  revert v q. induction ps as [|p ps IH]; intros v q Hq; cbv zeta.
  - simpl. repeat split; try lia. assumption.
  - change (deliver_all (map Move (p :: ps)) v)
      with (deliver_all (map Move ps) (mouseMoveEvent p v)).
    assert (Hp : _old_pos (mouseMoveEvent p v) = Some p)
      by (unfold mouseMoveEvent; rewrite Hq; reflexivity).
    destruct (IH (mouseMoveEvent p v) p Hp) as (Hx & Hy & Hw & Hh & Ho).
    assert (Hl : last (p :: ps) q = last ps p) by (clear; revert p; induction ps;
      intros; [reflexivity | simpl in *; destruct ps; [reflexivity | apply IHps]]).
    rewrite Hl, Hx, Hy, Hw, Hh, Ho.
    unfold mouseMoveEvent. rewrite Hq. simpl. repeat split; lia.
Qed.

(** X10: a drag moves the window by the displacement of the pointer: after
    a left press at [p0] and any moves, the window is where it was plus the
    last pointer position minus [p0], whatever the points in between, and
    its size is the same. *)
Theorem drag_follows_pointer (v : VramOverlayView) (p0 : QPoint) (ps : list QPoint) :
  let v1 := deliver_all (Press LeftButton p0 :: map Move ps) v in
  x v1 = x v + (px (last ps p0) - px p0) /\
  y v1 = y v + (py (last ps p0) - py p0) /\
  width v1 = width v /\ height v1 = height v /\
  _old_pos v1 = Some (last ps p0).
Proof.
  cbv zeta.
  change (deliver_all (Press LeftButton p0 :: map Move ps) v)
    with (deliver_all (map Move ps) (mousePressEvent LeftButton p0 v)).
  apply (moves_while_dragging ps (mousePressEvent LeftButton p0 v) (q := p0)).
  reflexivity.
Qed.

(** X11: without a left press the window stays where it is: with no drag in
    progress, moves, releases and presses of other buttons change nothing. *)
Theorem no_move_without_left_press (es : list mouse_event) (v : VramOverlayView) :
  _old_pos v = None ->
  forallb (fun e => negb (starts_drag e)) es = true ->
  x (deliver_all es v) = x v /\ y (deliver_all es v) = y v /\
  _old_pos (deliver_all es v) = None.
Proof.
  revert v. induction es as [|e es IH]; intros v Ho Hes; simpl in *.
  - repeat split. assumption.
  - apply andb_true_iff in Hes. destruct Hes as [He Hes].
    change (deliver_all (e :: es) v) with (deliver_all es (deliver e v)).
    assert (Hd : x (deliver e v) = x v /\ y (deliver e v) = y v /\
                 _old_pos (deliver e v) = None).
    { destruct e as [[| |] p|p|[| |]]; simpl in *; try discriminate;
        unfold mouseMoveEvent; try rewrite Ho; simpl; repeat split; assumption. }
    destruct Hd as (Hx & Hy & Ho').
    destruct (IH (deliver e v) Ho' Hes) as (Hx' & Hy' & Ho'').
    repeat split; congruence.
Qed.

Lemma no_move_without_left_press_witness :
  let v1 := deliver_all [Move (pt 5 5); Press RightButton (pt 6 6); Move (pt 50 60);
                         Release LeftButton; Move (pt 0 0)] small_window in
  x v1 = 0 /\ y v1 = 0 /\ _old_pos v1 = None.
Proof.
  exact (@no_move_without_left_press
           [Move (pt 5 5); Press RightButton (pt 6 6); Move (pt 50 60);
            Release LeftButton; Move (pt 0 0)] small_window eq_refl eq_refl).
Defined.

(** X12: [set_position] puts the right and bottom edges of the window 130
    and 85 inside the screen size it is given and keeps the size; the
    result is not clamped, so its corner has coordinates that are not
    negative exactly when the screen is at least the window plus the
    margins.  With no primary screen nothing moves. *)
Theorem set_position_margins (v : VramOverlayView) (geo_width geo_height : Z) :
  let v1 := set_position (Some (geo_width, geo_height)) v in
  x v1 + width v1 + 130 = geo_width /\
  y v1 + height v1 + 85 = geo_height /\
  width v1 = width v /\ height v1 = height v /\
  (0 <= x v1 /\ 0 <= y v1 <->
   width v + 130 <= geo_width /\ height v + 85 <= geo_height) /\
  set_position None v = v.
Proof.
  cbv zeta. unfold set_position, move, RIGHT_MARGIN, BOTTOM_MARGIN.
  simpl. repeat split; lia.
Qed.

Example set_position_samples :
  x (set_position (Some (1920, 1080)) small_window) = 1670 /\
  y (set_position (Some (1920, 1080)) small_window) = 965 /\
  x (set_position (Some (200, 100)) small_window) = -50.
Proof. repeat split. Qed.

Example drag_sample :
  let v1 := deliver_all [Press LeftButton (pt 10 10); Move (pt 15 12); Move (pt 300 7);
                         Move (pt 40 50); Release LeftButton; Move (pt 0 0)]
              small_window in
  x v1 = 30 /\ y v1 = 40 /\ _old_pos v1 = None.
Proof. repeat split. Qed.

End ViewExtra.

(** * More on the supervisor *)

Module NodesExtra.
Import Py Eff Nodes Supervision HostSamples NodesProofs.

Lemma bind_inr_nodes {A B} (m : M World A) (k : A -> M World B) (w w' : World) (a : A) :
  m w = (inr a, w') -> bind m k w = k a w'.
Proof. intros H. unfold bind. now rewrite H. Qed.

(** ** The singleton *)

Lemma construct_all_same (addresses : list nat) (inst : nat) :
  construct_all addresses (Some inst) = (repeat inst (List.length addresses), Some inst).
Proof.
  induction addresses as [|a rest IH]; simpl; [reflexivity|]. now rewrite IH.
Qed.

(** X13: however many times [OverlayProcessManager()] is called, every call
    returns the object the first call made (or the one the class already
    held), so all nodes share one manager. *)
Theorem manager_is_a_singleton (addresses : list nat) (_instance : option nat) :
  let first := match _instance, addresses with
               | Some inst, _ => Some inst
               | None, a :: _ => Some a
               | None, [] => None
               end in
  snd (construct_all addresses _instance) = first /\
  Forall (fun manager => Some manager = first) (fst (construct_all addresses _instance)).
Proof.
  cbv zeta. destruct _instance as [inst|].
  - rewrite construct_all_same. simpl. split; [reflexivity|].
    induction (List.length addresses); simpl; constructor; auto.
  - destruct addresses as [|a rest]; simpl; [split; [reflexivity | constructor]|].
    rewrite construct_all_same. simpl. split; [reflexivity|].
    constructor; [reflexivity|].
    induction (List.length rest); simpl; constructor; auto.
Qed.

(** ** One call *)

Lemma is_running_eq (host : Host) (w : World) :
  is_running host w =
  match _process w with
  | None => (inr false, w)
  | Some child =>
      match on_poll host (os_events w) child with
      | None => (inr true, add_event (ev_poll child None) w)
      | Some rc => (inr false, add_event (ev_poll child (Some rc)) w)
      end
  end.
Proof.
  eff. simpl. destruct (_process w) as [child|]; simpl; [|reflexivity].
  now destruct (on_poll host (os_events w) child).
Qed.

Lemma start_overlay_steps (host : Host) (w : World) :
  exists events,
    fst (start_overlay host w) = inr tt /\
    os_events (snd (start_overlay host w)) = (os_events w ++ events)%list /\
    start_steps host w events (_process (snd (start_overlay host w))).
Proof.
  pose proof (is_running_eq host w) as Hr.
  destruct (_process w) as [child|] eqn:Hc.
  - destruct (on_poll host (os_events w) child) as [rc|] eqn:Hp.
    + rewrite (@start_overlay_launch host _ w Hr). fold (script_path host) (overlay_cmd host).
      destruct (on_exists host _ _).
      * destruct (on_Popen host _ _ _) as [c'|errno] eqn:Hs; simpl;
          eexists; (split; [reflexivity|]); (split; [now rewrite <- !app_assoc|]).
        -- eapply (@start_spawned host w [ev_poll child (Some rc)]).
           now apply polled_exited.
        -- rewrite <- ?Hc.
           eapply (@start_refused host w [ev_poll child (Some rc)]).
           now apply polled_exited.
      * simpl. eexists. split; [reflexivity|]. split; [now rewrite <- !app_assoc|].
        rewrite <- ?Hc. eapply (@start_missing host w [ev_poll child (Some rc)]).
        now apply polled_exited.
    + rewrite (start_overlay_running host w Hc Hp). simpl.
      eexists. split; [reflexivity|]. split; [reflexivity|]. rewrite Hc.
      now apply start_running.
  - rewrite (@start_overlay_launch host _ w Hr). fold (script_path host) (overlay_cmd host).
    destruct (on_exists host _ _).
    + destruct (on_Popen host _ _ _) as [c'|errno] eqn:Hs; simpl;
        eexists; (split; [reflexivity|]); (split; [now rewrite <- !app_assoc|]).
      * eapply (@start_spawned host w []). now apply polled_no_handle.
      * rewrite <- ?Hc. eapply (@start_refused host w []).
        now apply polled_no_handle.
    + simpl. eexists. split; [reflexivity|]. split; [reflexivity|].
      rewrite <- ?Hc. eapply (@start_missing host w []).
      now apply polled_no_handle.
Qed.

Lemma stop_overlay_steps (host : Host) (w : World) :
  exists events,
    fst (stop_overlay host w) = inr tt /\
    os_events (snd (stop_overlay host w)) = (os_events w ++ events)%list /\
    stop_steps w events (_process (snd (stop_overlay host w))).
Proof.
  destruct (_process w) as [child|] eqn:Hc.
  - destruct (on_poll host (os_events w) child) as [rc|] eqn:Hp.
    + rewrite (stop_overlay_exited host w Hc Hp). simpl.
      eexists. split; [reflexivity|]. split; [reflexivity|].
      rewrite <- ?Hc. apply stop_not_running. now apply polled_exited.
    + rewrite (stop_overlay_running host w Hc Hp). cbv zeta.
      destruct (on_wait host _ child 2) as [rc|]; simpl;
        eexists; (split; [reflexivity|]); (split; [now rewrite <- !app_assoc|]).
      * now apply stop_graceful.
      * now apply stop_forced.
  - rewrite (stop_overlay_no_handle host w Hc). simpl.
    exists []. split; [reflexivity|]. split; [now rewrite app_nil_r|].
    rewrite <- ?Hc. apply stop_not_running. now apply polled_no_handle.
Qed.

Lemma count_app {A} (f : A -> bool) (l l' : list A) :
  count f (l ++ l') = (count f l + count f l')%nat.
Proof. unfold count. now rewrite filter_app, length_app. Qed.

Lemma spawned_count (w : World) : spawned w = count is_spawn (os_events w).
Proof. reflexivity. Qed.

Lemma is_running_false (host : Host) (w0 : World) :
  fst (is_running host w0) = inr false ->
  is_running host w0 = (inr false, snd (is_running host w0)) /\
  _process (snd (is_running host w0)) = _process w0 /\
  spawned (snd (is_running host w0)) = spawned w0.
Proof.
  rewrite is_running_eq. destruct (_process w0) as [child|] eqn:Hc.
  - destruct (on_poll host (os_events w0) child); simpl; [|discriminate].
    intros _. repeat split; [assumption|].
    rewrite spawned_add_event. simpl. lia.
  - simpl. intros _. repeat split. assumption.
Qed.

(** X14: when nothing is running (no handle, or a handle whose process has
    exited), [start_overlay] looks for the script next to nodes.py.  Without
    it nothing is spawned and the handle is kept.  With it, it starts
    [sys.executable script --pid <own pid>] in that directory once: the
    child becomes the handle, or, when the system refuses, the handle is
    kept as it was. *)
Theorem start_overlay_launches (host : Host) (w0 : World) :
  fst (is_running host w0) = inr false ->
  let w := snd (is_running host w0) in
  let w1 := snd (start_overlay host w0) in
  let seen := (os_events w ++ [ev_exists (script_path host) true])%list in
  if on_exists host (os_events w) (script_path host) then
    match on_Popen host seen (overlay_cmd host) (current_dir host) with
    | Spawned child =>
        _process w1 = Some child /\ spawned w1 = S (spawned w0) /\
        os_events w1 =
        (seen ++ [ev_Popen (overlay_cmd host) (current_dir host) (Spawned child)])%list
    | Refused errno =>
        _process w1 = _process w0 /\ spawned w1 = spawned w0 /\
        os_events w1 =
        (seen ++ [ev_Popen (overlay_cmd host) (current_dir host) (Refused errno)])%list
    end
  else
    _process w1 = _process w0 /\ spawned w1 = spawned w0 /\
    os_events w1 = (os_events w ++ [ev_exists (script_path host) false])%list.
Proof.
  intros Hr. destruct (is_running_false host w0 Hr) as (Heq & Hp & Hs). cbv zeta.
  rewrite (@start_overlay_launch host _ w0 Heq).
  fold (script_path host) (overlay_cmd host).
  destruct (on_exists host (os_events (snd (is_running host w0))) (script_path host)).
  - change (os_events (add_event (ev_exists (script_path host) true)
                         (snd (is_running host w0))))
      with (os_events (snd (is_running host w0)) ++ [ev_exists (script_path host) true])%list.
    destruct (on_Popen host _ (overlay_cmd host) (current_dir host)) as [child|errno];
      simpl snd; rewrite spawned_add_log.
    + split; [reflexivity|]. split; [|reflexivity].
      rewrite <- Hs. rewrite !spawned_count. simpl os_events.
      rewrite !count_app. unfold count. simpl. lia.
    + split; [exact Hp|]. split; [|reflexivity].
      rewrite <- Hs. rewrite !spawned_count. simpl os_events.
      rewrite !count_app. unfold count. simpl. lia.
  - simpl snd. rewrite spawned_add_log, spawned_add_event. simpl.
    split; [exact Hp|]. split; [lia | reflexivity].
Qed.

Lemma start_overlay_launches_witness :
  _process (snd (start_overlay crashing_host (started_world crashing_host)))
  = Some {| pid := 4242 |} /\
  spawned (snd (start_overlay crashing_host (started_world crashing_host))) = 2%nat /\
  _process (snd (start_overlay refusing_host World_init)) = None /\
  _process (snd (start_overlay incomplete_host World_init)) = None.
Proof.
  pose proof (@start_overlay_launches crashing_host (started_world crashing_host) eq_refl)
    as H1.
  pose proof (@start_overlay_launches refusing_host World_init eq_refl) as H2.
  pose proof (@start_overlay_launches incomplete_host World_init eq_refl) as H3.
  cbv zeta in H1, H2, H3.
  simpl on_exists in H1, H2, H3. simpl on_Popen in H1, H2.
  destruct H1 as (H1 & H1' & _). destruct H2 as (H2 & _). destruct H3 as (H3 & _).
  split; [exact H1|]. split; [exact H1'|]. split; [exact H2 | exact H3].
Defined.

Lemma signals_events (w w1 : World) (events : list os_event) :
  os_events w1 = (os_events w ++ events)%list ->
  signals w1 = (signals w ++ filter is_signal events)%list.
Proof. intros H. unfold signals. now rewrite H, filter_app. Qed.

Lemma spawned_events (w w1 : World) (events : list os_event) :
  os_events w1 = (os_events w ++ events)%list ->
  spawned w1 = (spawned w + count is_spawn events)%nat.
Proof. intros H. rewrite !spawned_count, H. apply count_app. Qed.

(** X15: [start_overlay] never raises and never sends a signal.  Either it
    spawns nothing and keeps the handle, or it spawns exactly one process,
    which becomes the handle and whose [Popen] is the last thing it asked
    for, and it does that only when [is_running] was false. *)
Theorem start_overlay_effects (host : Host) (w : World) :
  let w1 := snd (start_overlay host w) in
  fst (start_overlay host w) = inr tt /\
  signals w1 = signals w /\
  (spawned w1 = spawned w /\ _process w1 = _process w \/
   spawned w1 = S (spawned w) /\ fst (is_running host w) = inr false /\
   exists child,
     _process w1 = Some child /\
     last (os_events w1) (ev_kill child)
     = ev_Popen (overlay_cmd host) (current_dir host) (Spawned child)).
Proof.
  cbv zeta. destruct (start_overlay_steps host w) as (events & Hr & He & Hst).
  pose proof (@signals_events _ _ _ He) as Hsig.
  pose proof (@spawned_events _ _ _ He) as Hsp.
  split; [assumption|].
  destruct Hst as [child Hc | polled Hp | polled errno Hp | polled child Hp];
    try (destruct Hp as [Hc | c rc Hc]); simpl in Hsig, Hsp;
    rewrite ?app_nil_r in Hsig; (split; [exact Hsig|]).
  1-5: left; split; [unfold count in Hsp; simpl in Hsp; lia | congruence].
  all: right; (split; [unfold count in Hsp; simpl in Hsp; lia|]); split.
  - destruct (is_running_returns host w) as [[|] Hb]; [|assumption].
    pose proof (proj2 (start_overlay_spawns_at_most_one host w) Hb).
    unfold count in Hsp; simpl in Hsp. lia.
  - exists child. split; [reflexivity|]. rewrite He. simpl.
    change [ev_exists (script_path host) true;
            ev_Popen (overlay_cmd host) (current_dir host) (Spawned child)]
      with ([ev_exists (script_path host) true] ++
            [ev_Popen (overlay_cmd host) (current_dir host) (Spawned child)])%list.
    rewrite app_assoc. apply last_last.
  - destruct (is_running_returns host w) as [[|] Hb]; [|assumption].
    pose proof (proj2 (start_overlay_spawns_at_most_one host w) Hb).
    unfold count in Hsp; simpl in Hsp. lia.
  - exists child. split; [reflexivity|]. rewrite He. simpl.
    change [ev_poll c (Some rc); ev_exists (script_path host) true;
            ev_Popen (overlay_cmd host) (current_dir host) (Spawned child)]
      with ([ev_poll c (Some rc); ev_exists (script_path host) true] ++
            [ev_Popen (overlay_cmd host) (current_dir host) (Spawned child)])%list.
    rewrite app_assoc. apply last_last.
Qed.


(** ** Many executions of the node *)

Lemma polled_not_running_log (l : log_level) (w : World) (polled : list os_event) :
  polled_not_running (add_log l w) polled -> polled_not_running w polled.
Proof. intros H. destruct H as [Hc | c rc Hc]; [now apply polled_no_handle | now apply polled_exited]. Qed.

Lemma start_steps_log (host : Host) (l : log_level) (w : World)
    (events : list os_event) (p : option Popen) :
  start_steps host (add_log l w) events p -> start_steps host w events p.
Proof.
  intros H. destruct H as [c Hc | pp Hp | pp e Hp | pp c Hp];
    try apply polled_not_running_log in Hp.
  - now apply start_running.
  - now apply (@start_missing host w pp).
  - now apply (@start_refused host w pp).
  - now apply (@start_spawned host w pp).
Qed.

Lemma stop_steps_log (l : log_level) (w : World) (events : list os_event)
    (p : option Popen) :
  stop_steps (add_log l w) events p -> stop_steps w events p.
Proof.
  intros H. destruct H as [pp Hp | c rc Hc | c Hc].
  - apply polled_not_running_log in Hp. now apply (@stop_not_running w pp).
  - now apply stop_graceful.
  - now apply stop_forced.
Qed.

(** One execution: the output, and what it asked of the operating system. *)
Lemma run_steps (host : Host) (enabled : bool) (w : World) :
  exists w1 events,
    run host enabled w = (inr enabled, w1) /\
    os_events w1 = (os_events w ++ events)%list /\
    if enabled then start_steps host w events (_process w1)
    else stop_steps w events (_process w1).
Proof.
  unfold run. erewrite bind_inr_nodes by reflexivity.
  destruct enabled.
  - destruct (start_overlay_steps host (add_log INFO w)) as (events & Hr & He & Hst).
    destruct (start_overlay host (add_log INFO w)) as [[e|[]] w1] eqn:Hw; simpl in *;
      [discriminate|].
    exists w1, events. split; [|split; [assumption | now apply start_steps_log in Hst]].
    unfold bind. rewrite Hw. reflexivity.
  - destruct (stop_overlay_steps host (add_log INFO w)) as (events & Hr & He & Hst).
    destruct (stop_overlay host (add_log INFO w)) as [[e|[]] w1] eqn:Hw; simpl in *;
      [discriminate|].
    exists w1, events. split; [|split; [assumption | now apply stop_steps_log in Hst]].
    unfold bind. rewrite Hw. reflexivity.
Qed.

Lemma run_all_cons (host : Host) (b : bool) (rest : list bool) (w w1 : World) :
  run host b w = (inr b, w1) ->
  run_all host (b :: rest) w =
  match run_all host rest w1 with
  | (inr outs, w2) => (inr (b :: outs), w2)
  | (inl e, w2) => (inl e, w2)
  end.
Proof.
  intros Hrun. simpl. unfold bind. rewrite Hrun.
  now destruct (run_all host rest w1) as [[e|outs] w2].
Qed.

(** Induction over the executions, for a property of the events and the
    handle. *)
Lemma run_all_invariant (host : Host) (J : list os_event -> option Popen -> Prop) :
  (forall w events p,
     J (os_events w) (_process w) -> start_steps host w events p ->
     J (os_events w ++ events)%list p) ->
  (forall w events p,
     J (os_events w) (_process w) -> stop_steps w events p ->
     J (os_events w ++ events)%list p) ->
  forall inputs w,
    J (os_events w) (_process w) ->
    fst (run_all host inputs w) = inr inputs /\
    J (os_events (snd (run_all host inputs w))) (_process (snd (run_all host inputs w))).
Proof.
  intros Hstart Hstop. induction inputs as [|b rest IH]; intros w Hw.
  - now split.
  - destruct (run_steps host b w) as (w1 & events & Hrun & He & Hst).
    rewrite (@run_all_cons host b rest w w1 Hrun).
    assert (Hw1 : J (os_events w1) (_process w1)).
    { rewrite He. destruct b; [now apply Hstart | now apply Hstop]. }
    destruct (IH w1 Hw1) as [Hout HJ].
    destruct (run_all host rest w1) as [[e|outs] w2]; simpl in *; [discriminate|].
    inversion Hout; subst outs. now split.
Qed.


Lemma step_counts (host : Host) (b : bool) (w : World) (events : list os_event)
    (p : option Popen) :
  (if b then start_steps host w events p else stop_steps w events p) ->
  (count is_spawn events <= if b then 1 else 0)%nat /\
  (count is_terminate events <= if b then 0 else 1)%nat /\
  (count is_kill events <= count is_terminate events)%nat.
Proof.
  destruct b; intros H.
  - destruct H as [c Hc | pp Hp | pp e Hp | pp c Hp]; try destruct Hp;
      unfold count; simpl; repeat split; lia.
  - destruct H as [pp Hp | c rc Hc | c Hc]; try destruct Hp;
      unfold count; simpl; repeat split; lia.
Qed.

Lemma run_all_counts (host : Host) (inputs : list bool) (w : World) :
  let w1 := snd (run_all host inputs w) in
  (count is_spawn (os_events w1)
   <= count is_spawn (os_events w) + count (fun b => b) inputs)%nat /\
  (count is_terminate (os_events w1)
   <= count is_terminate (os_events w) + count negb inputs)%nat /\
  (count is_kill (os_events w1) + count is_terminate (os_events w)
   <= count is_kill (os_events w) + count is_terminate (os_events w1))%nat.
Proof.
  cbv zeta. revert w. induction inputs as [|b rest IH]; intros w.
  - simpl. repeat split; lia.
  - destruct (run_steps host b w) as (w1 & events & Hrun & He & Hst).
    rewrite (@run_all_cons host b rest w w1 Hrun).
    destruct (step_counts host b w events _ Hst) as (Hs & Ht & Hk).
    destruct (IH w1) as (Hs' & Ht' & Hk').
    assert (Hw : snd (match run_all host rest w1 with
                      | (inr outs, w2) => (inr (b :: outs), w2)
                      | (inl e, w2) => (inl e, w2)
                      end) = snd (run_all host rest w1))
      by (now destruct (run_all host rest w1) as [[e|outs] w2]).
    rewrite Hw. rewrite He in Hs', Ht', Hk'. rewrite !count_app in Hs', Ht', Hk'.
    rewrite ?count_app in Hk'.
    assert (Hc : count (fun b0 : bool => b0) (b :: rest)
                 = ((if b then 1 else 0) + count (fun b0 : bool => b0) rest)%nat)
      by (unfold count; simpl; now destruct b).
    assert (Hn : count negb (b :: rest)
                 = ((if b then 0 else 1) + count negb rest)%nat)
      by (unfold count; simpl; now destruct b).
    rewrite Hc, Hn. destruct b; repeat split; lia.
Qed.

(** X16: however the node is executed, each execution returns its input,
    and the supervisor has spawned at most one process per execution with
    [enabled] true, sent terminate at most once per execution with [enabled]
    false, and never sent more kills than terminates. *)
Theorem run_all_passes_through (host : Host) (inputs : list bool) :
  let r := run_all host inputs World_init in
  fst r = inr inputs /\
  (spawned (snd r) <= count (fun b => b) inputs)%nat /\
  (count is_terminate (os_events (snd r)) <= count negb inputs)%nat /\
  (count is_kill (os_events (snd r)) <= count is_terminate (os_events (snd r)))%nat.
Proof.
  cbv zeta. split.
  - apply (@run_all_invariant host (fun _ _ => True)); auto.
  - destruct (run_all_counts host inputs World_init) as (Hs & Ht & Hk).
    rewrite spawned_count. unfold count in *. simpl in *. repeat split; lia.
Qed.

(** ** One overlay at a time *)

Lemma same_child_refl (c : Popen) : same_child c c = true.
Proof. apply Z.eqb_refl. Qed.

Lemma may_run_app (r : option Popen) (es es' : list os_event) :
  may_run r (es ++ es') = may_run (may_run r es) es'.
Proof. apply fold_left_app. Qed.

Lemma one_at_a_time_app (es es' : list os_event) (r : option Popen) :
  one_at_a_time r (es ++ es') = (one_at_a_time r es && one_at_a_time (may_run r es) es')%bool.
Proof.
  revert r. induction es as [|e es IH]; intros r; [reflexivity|].
  change (may_run r (e :: es)) with (may_run (after_event r e) es).
  destruct e as [path a|cmd cwd [c|errno]|c rc|c|c t rc|c]; destruct r as [r|];
    simpl; try apply IH; reflexivity.
Qed.


Lemma start_steps_covered (host : Host) (w : World) (events : list os_event)
    (p r : option Popen) :
  start_steps host w events p ->
  r = None \/ r = _process w ->
  one_at_a_time r events = true /\ (may_run r events = None \/ may_run r events = p).
Proof.
  intros H Hr.
  destruct H as [c Hc | pp Hp | pp e Hp | pp c Hp]; try destruct Hp as [Hc | c' rc Hc];
    destruct Hr as [-> | ->]; rewrite ?Hc; unfold may_run; simpl;
    rewrite ?same_child_refl; auto.
Qed.

Lemma stop_steps_covered (w : World) (events : list os_event) (p r : option Popen) :
  stop_steps w events p ->
  r = None \/ r = _process w ->
  one_at_a_time r events = true /\ (may_run r events = None \/ may_run r events = p).
Proof.
  intros H Hr.
  destruct H as [pp Hp | c rc Hc | c Hc]; try destruct Hp as [Hc | c' rc Hc];
    destruct Hr as [-> | ->]; rewrite ?Hc; unfold may_run; simpl;
    rewrite ?same_child_refl; auto.
Qed.

(** X17: however the node is executed, the supervisor never spawns an
    overlay while an earlier one may still run, that is, before a poll or a
    wait returned the exit status of the earlier one or the kill signal was
    sent to it; and a child that may still run is the one the handle
    holds. *)
Theorem one_overlay_at_a_time (host : Host) (inputs : list bool) :
  let w := snd (run_all host inputs World_init) in
  one_at_a_time None (os_events w) = true /\
  (may_run None (os_events w) = None \/ may_run None (os_events w) = _process w).
Proof.
  cbv zeta. apply (@run_all_invariant host covered).
  - intros w events p [Hone Hr] Hst. unfold covered.
    rewrite one_at_a_time_app, may_run_app, Hone.
    apply (start_steps_covered Hst Hr).
  - intros w events p [Hone Hr] Hst. unfold covered.
    rewrite one_at_a_time_app, may_run_app, Hone.
    apply (stop_steps_covered Hst Hr).
  - split; [reflexivity | now left].
Qed.

(** Enable, enable, disable, enable on a host whose overlay ignores
    SIGTERM: two spawns, the second after the kill. *)
Example restart_after_kill :
  let w := snd (run_all stubborn_host [true; true; false; true] World_init) in
  spawned w = 2%nat /\
  signals w = [ev_terminate {| pid := 4242 |}; ev_kill {| pid := 4242 |}] /\
  _process w = Some {| pid := 4242 |} /\
  may_run None (os_events w) = Some {| pid := 4242 |}.
Proof. repeat split. Qed.

Lemma steps_launch_events (host : Host) (b : bool) (w : World)
    (events : list os_event) (p : option Popen) :
  (if b then start_steps host w events p else stop_steps w events p) ->
  Forall (launch_event host) events.
Proof.
  destruct b; intros H.
  - destruct H as [c Hc | pp Hp | pp e Hp | pp c Hp]; try destruct Hp;
      simpl; repeat constructor.
  - destruct H as [pp Hp | c rc Hc | c Hc]; try destruct Hp; repeat constructor.
Qed.

(** X18: every process the supervisor ever starts is
    [sys.executable <dir>/mvu_overlay_app.py --pid <pid of the host>],
    started in the directory of nodes.py, and that script is the only path
    whose existence it checks. *)
Theorem overlay_is_told_the_host_pid (host : Host) (inputs : list bool) :
  let events := os_events (snd (run_all host inputs World_init)) in
  (forall cmd cwd result,
     In (ev_Popen cmd cwd result) events ->
     cmd = [sys_executable host;
            path_join host (current_dir host) "mvu_overlay_app.py";
            "--pid"; str_of_int (getpid host)] /\
     cwd = current_dir host) /\
  (forall path answer,
     In (ev_exists path answer) events ->
     path = path_join host (current_dir host) "mvu_overlay_app.py").
Proof.
  cbv zeta.
  assert (H : Forall (launch_event host) (os_events (snd (run_all host inputs World_init)))).
  { apply (@run_all_invariant host (fun es _ => Forall (launch_event host) es)).
    - intros w events p Hw Hst. apply Forall_app. split; [assumption|].
      apply (@steps_launch_events host true w events p Hst).
    - intros w events p Hw Hst. apply Forall_app. split; [assumption|].
      apply (@steps_launch_events host false w events p Hst).
    - constructor. }
  rewrite Forall_forall in H. split.
  - intros cmd cwd result Hin. exact (H _ Hin).
  - intros path answer Hin. exact (H _ Hin).
Qed.


End NodesExtra.
